(** * lodz_alcohol_map_v6: geocoding cache, spatial join and map output

    A shallow embedding of [lodz_alcohol_map_v6.py].  Python [str] values are
    sequences of Unicode code points; the geocoders, the file system and the
    clock are threaded through an explicit state, and every call that leaves
    the process is recorded in a trace.  The progress bar and the messages
    printed to the console are left out; what the libraries compute is
    taken from [Extern]. *)

From Stdlib Require Import NArith ZArith QArith_base List Bool String Ascii Lia.
From Stdlib Require Import DecimalString.
From stdpp Require Import base option list gmap.

Local Open Scope N_scope.

(** ** Strings *)

(** A Python [str]: the list of its code points. *)
Abbreviation str := (list N).

(** An ASCII literal as a [str]. *)
Definition py (s : string) : str :=
  List.map N_of_ascii (list_ascii_of_string s).

Definition is_ascii (c : N) : bool := c <? 128.

(** [str.isspace] / the class [\s] of a [str] pattern (Py_UNICODE_ISSPACE). *)
Definition is_space (c : N) : bool :=
  ((9 <=? c) && (c <=? 13)) || ((28 <=? c) && (c <=? 32))
  || (c =? 133) || (c =? 160) || (c =? 5760)
  || ((8192 <=? c) && (c <=? 8202))
  || (c =? 8232) || (c =? 8233) || (c =? 8239) || (c =? 8287) || (c =? 12288).

Definition ascii_alnum (c : N) : bool :=
  ((48 <=? c) && (c <=? 57)) || ((65 <=? c) && (c <=? 90))
  || ((97 <=? c) && (c <=? 122)).

(** Lower-casing as the [re] module applies it under [re.I]; exact on the
    code points whose lower case is an ASCII letter (the Kelvin sign U+212A
    lowers to [k]). *)
Definition sre_lower (c : N) : N :=
  if (65 <=? c) && (c <=? 90) then c + 32
  else if c =? 8490 then 107 else c.

(** A pattern letter [p] (lower case) against the character [c] under [re.I]. *)
Definition ci (p c : N) : bool := sre_lower c =? p.

(** ** Floats and table cells *)

(** A Python float: NaN, or a number.  The program never computes with the
    numbers; it tests them for NaN and copies them. *)
Inductive pyfloat := NaN | Num (q : Q).

Definition float_isna (x : pyfloat) : bool :=
  match x with NaN => true | Num _ => false end.

(** A shapely point, [Point((x, y))]. *)
Record Point := mkPoint { pt_x : pyfloat; pt_y : pyfloat }.

(** The value of one table cell. *)
Inductive cell :=
| CStr (s : str)
| CFloat (x : pyfloat)
| CGeom (p : Point)
| CNone.

(** [pd.isna] on a scalar. *)
Definition isna (c : cell) : bool :=
  match c with
  | CFloat x => float_isna x
  | CNone => true
  | _ => false
  end.

#[global] Instance Q_eq_dec : EqDecision Q.
Proof. solve_decision. Defined.
#[global] Instance pyfloat_eq_dec : EqDecision pyfloat.
Proof. solve_decision. Defined.
#[global] Instance Point_eq_dec : EqDecision Point.
Proof. solve_decision. Defined.
#[global] Instance cell_eq_dec : EqDecision cell.
Proof. solve_decision. Defined.

(** One table row: column name to value. *)
Abbreviation Row := (gmap str cell).

(** A pandas DataFrame: its column names and its rows. *)
Record DataFrame := mkDF { columns : list str; rows : list Row }.

(** The value of column [col] in row [r]; pandas shows a hole as NaN. *)
Definition cell_of (r : Row) (col : str) : cell :=
  default (CFloat NaN) (r !! col).

(** A geopy [Location]. *)
Record Location := mkLoc { latitude : pyfloat; longitude : pyfloat }.

(** One row of the cache file, with the columns [_save_cache] writes. *)
Record CacheRow := mkCacheRow {
  address : str; lat : pyfloat; lon : pyfloat; timestamp_iso : str
}.

(** The in-memory cache, a Python [dict] from address to [(lat, lon)].
    A dict keeps its keys in insertion order and [_save_cache] writes the
    rows in that order, so the model is an association list without
    repeated keys. *)
Abbreviation pydict := (list (str * (pyfloat * pyfloat))).

(** [c.get(k)]. *)
Fixpoint dict_get (c : pydict) (k : str) : option (pyfloat * pyfloat) :=
  match c with
  | [] => None
  | (k', v) :: r => if decide (k' = k) then Some v else dict_get r k
  end.

(** [c[k] = v]: an existing key keeps its place, a new one goes last. *)
Fixpoint dict_set (c : pydict) (k : str) (v : pyfloat * pyfloat) : pydict :=
  match c with
  | [] => [(k, v)]
  | (k', v') :: r =>
      if decide (k' = k) then (k, v) :: r else (k', v') :: dict_set r k v
  end.

Definition keys (c : pydict) : list str := List.map fst c.

(** [Series.dropna()]. *)
Definition dropna (l : list cell) : list cell :=
  List.filter (fun c => negb (isna c)) l.

(** [Series.unique()]: first occurrences, in order of appearance. *)
Fixpoint unique (l : list cell) : list cell :=
  match l with
  | [] => []
  | x :: r => x :: List.filter (fun y => negb (bool_decide (y = x))) (unique r)
  end.

Inductive Provider := OSM | ARC.

(** What the program does to the outside world, in order. *)
Inductive Event :=
| EvReadExcel (path : str)
| EvReadCsv (path : str)
| EvToCsv (path : str) (table : list CacheRow)
| EvGeocode (g : Provider) (query : str)
| EvReadGeo (path : str)
| EvSave (path : str).

Inductive exn :=
| KeyError (k : str)
| AttributeError
| TypeError
| FileNotFoundError (path : str)
| ParserError (path : str)
| TemplateSyntaxError.

Inductive result (A : Type) :=
| Ok (a : A)
| Raise (e : exn).
Arguments Ok {A} a.
Arguments Raise {A} e.

(** [df[col]]. *)
Definition getitem (df : DataFrame) (col : str) : result (list cell) :=
  if bool_decide (col ∈ columns df)
  then Ok (List.map (fun r => cell_of r col) (rows df))
  else Raise (KeyError col).

(** [df[col] = ...], the new value of each row computed from the row. *)
Definition set_column (df : DataFrame) (col : str) (f : Row -> cell) : DataFrame :=
  {| columns := if bool_decide (col ∈ columns df) then columns df
                else columns df ++ [col];
     rows := List.map (fun r => <[col := f r]> r) (rows df) |}.

(** ** What the libraries supply

    Tables and services that live outside the repository.  The Unicode
    tables are consulted for non-ASCII code points only. *)
Record Extern := {
  (** [str.isalnum] of a code point above 127 (for [\w] and [\b]). *)
  uni_isalnum : N -> bool;
  (** [str.isdecimal] of a code point above 127 (for [\d]). *)
  uni_isdecimal : N -> bool;
  (** unidecode's transliteration of a code point above 127. *)
  uni_translit : N -> str;
  (** The network and the clock. *)
  World : Type;
  (** One call of [RateLimiter(provider.geocode, min_delay_seconds=d,
      max_retries=3, error_wait_seconds=2)]: the waiting, the request and
      its retries; [None] when the service finds nothing or keeps failing. *)
  geocode : Provider -> Q -> str -> World -> option Location * World;
  (** [time.strftime('%Y-%m-%dT%H:%M:%S')]. *)
  strftime : World -> str * World;
  (** A polygon of the boundary file. *)
  Geom : Type;
  (** shapely's [within]. *)
  within : Point -> Geom -> bool;
  (** [unary_union.centroid] of a non-empty column of points. *)
  centroid : list Point -> Point;
  (** The coordinate shapely makes of a value that is not a float. *)
  to_float : cell -> option pyfloat;
  (** [sorted] and the key order of [groupby] and [pivot_table]. *)
  sorted : list cell -> list cell;
  (** [sort_values('count', ascending=False)] (ties in pandas' order). *)
  sort_values_desc : list (cell * nat) -> list (cell * nat);
  (** [str()] of a value that is not a [str]. *)
  format_value : cell -> str;
  (** [json.dumps] of a category and of the table of counts. *)
  json_dumps : cell -> str;
  json_dumps_table : list (cell * list (cell * nat)) -> str;
  (** The [_id] folium gives the [n]-th marker cluster. *)
  element_id : nat -> str;
  (** Whether Jinja2 accepts the text as a template ([folium.Element]). *)
  jinja_parses : str -> bool;
}.

Section Defs.
Context (E : Extern).

(** The class [\w]. *)
Definition is_word (c : N) : bool :=
  if is_ascii c then ascii_alnum c || (c =? 95) else uni_isalnum E c.

(** The class [\d]. *)
Definition is_digit (c : N) : bool :=
  if is_ascii c then (48 <=? c) && (c <=? 57) else uni_isdecimal E c.

Definition is_word_opt (c : option N) : bool :=
  match c with Some c => is_word c | None => false end.

(** [\b] between the previous character and the rest of the input. *)
Definition word_boundary (prev : option N) (s : str) : bool :=
  xorb (is_word_opt prev) (is_word_opt (head s)).

(** Length of the longest prefix whose characters satisfy [p]. *)
Fixpoint span_len (p : N -> bool) (s : str) : nat :=
  match s with
  | c :: r => if p c then S (span_len p r) else O
  | [] => O
  end.

(** A compiled pattern: given the character before the current position and
    the input from that position on, the length of the match that starts
    there, if there is one. *)
Definition matcher := option N -> str -> option nat.

(** [re.sub(pattern, repl, s)] for a pattern that matches no empty string:
    scan left to right, replace each match by [repl], resume after it.
    [skip] counts the characters of the current match still to be dropped. *)
Fixpoint re_sub_from (m : matcher) (repl : str) (skip : nat)
    (prev : option N) (s : str) : str :=
  match s with
  | [] => []
  | c :: r =>
      match skip with
      | S k => re_sub_from m repl k (Some c) r
      | O =>
          match m prev s with
          | Some (S k) => repl ++ re_sub_from m repl k (Some c) r
          | _ => c :: re_sub_from m repl O (Some c) r
          end
      end
  end.

Definition re_sub (m : matcher) (repl : str) (s : str) : str :=
  re_sub_from m repl O None s.

(** [\bul\.?] with [re.I]. *)
Definition m_ul : matcher := fun prev s =>
  if word_boundary prev s then
    match s with
    | c1 :: c2 :: t =>
        if ci 117 c1 && ci 108 c2 then
          Some (match t with
                | d :: _ => if d =? 46 then 3%nat else 2%nat
                | [] => 2%nat
                end)
        else None
    | _ => None
    end
  else None.

(** [\s*\S+]: all the white space, then a non-empty run of other characters. *)
Definition spaces_then_token (s : str) : option nat :=
  let k := span_len is_space s in
  let n := span_len (fun c => negb (is_space c)) (drop k s) in
  match n with
  | O => None
  | S _ => Some (k + n)%nat
  end.

(** [\bxyz\.?\s*\S+] with [re.I], for the three letters [x], [y], [z]:
    the dot is taken when the rest still matches, and given back otherwise. *)
Definition m_unit (x y z : N) : matcher := fun prev s =>
  if word_boundary prev s then
    match s with
    | c1 :: c2 :: c3 :: t =>
        if ci x c1 && ci y c2 && ci z c3 then
          let with_dot :=
            match t with
            | d :: t' => if d =? 46 then spaces_then_token t' else None
            | [] => None
            end in
          match with_dot with
          | Some n => Some (4 + n)%nat
          | None =>
              match spaces_then_token t with
              | Some n => Some (3 + n)%nat
              | None => None
              end
          end
        else None
    | _ => None
    end
  else None.

Definition m_lok : matcher := m_unit 108 111 107.
Definition m_paw : matcher := m_unit 112 97 119.

(** [\s+]. *)
Definition m_ws : matcher := fun _ s =>
  match span_len is_space s with
  | O => None
  | S k => Some (S k)
  end.

(** [\s+\d+.*$]: white space, digits, then everything up to the end of the
    string ([.] stops at a newline; [$] also matches before a final newline). *)
Definition m_housenum : matcher := fun _ s =>
  let k := span_len is_space s in
  let s1 := drop k s in
  let d := span_len is_digit s1 in
  let s2 := drop d s1 in
  let l := span_len (fun c => negb (c =? 10)) s2 in
  match k, d, drop l s2 with
  | S _, S _, [] => Some (k + d + l)%nat
  | S _, S _, [c] => if c =? 10 then Some (k + d + l)%nat else None
  | _, _, _ => None
  end.

Definition lstrip (s : str) : str := drop (span_len is_space s) s.

Fixpoint rstrip (s : str) : str :=
  match s with
  | [] => []
  | c :: r =>
      match rstrip r with
      | [] => if is_space c then [] else [c]
      | r' => c :: r'
      end
  end.

(** [str.strip()]. *)
Definition strip (s : str) : str := rstrip (lstrip s).

(** [unidecode] ([unidecode_expect_ascii]): an ASCII string is returned as it
    is; otherwise every code point above 127 is replaced by its table entry. *)
Definition unidecode (s : str) : str :=
  if forallb is_ascii s then s
  else concat (List.map (fun c => if is_ascii c then [c] else uni_translit E c) s).

Definition normalize_address (addr : str) : str :=
  let a := re_sub m_ul [] (strip addr) in
  let a := re_sub m_lok [] a in
  let a := re_sub m_paw [] a in
  let a := re_sub m_ws [32] a in
  strip (unidecode a).

(** The three removals of [normalize_address], in its order. *)
Definition remove_tokens (a : str) : str :=
  re_sub m_paw [] (re_sub m_lok [] (re_sub m_ul [] a)).

(** Every white-space character of [s] is a single blank that follows no
    other white space ([after_space] tells what came before [s]). *)
Fixpoint spaced (after_space : bool) (s : str) : bool :=
  match s with
  | [] => true
  | c :: r =>
      if is_space c then (c =? 32) && negb after_space && spaced true r
      else spaced false r
  end.

(** The address with [\s+\d+.*$] removed, then stripped: the [street_only] of
    [geocode_addresses]. *)
Definition street_only (addr : str) : str :=
  strip (re_sub m_housenum [] addr).

(** ** Files, state and effects *)

(** A GeoDataFrame read from the boundary file. *)
Record GeoFrame := mkGeo {
  gcolumns : list str;
  features : list (Row * Geom E)
}.

(** A marker of a cluster layer. *)
Record Marker := mkMarker { position : pyfloat * pyfloat; popup : str }.

(** The folium figure as far as this development looks at it: the start
    location, the heat map's points, the marker cluster of each category and
    the elements added to the HTML body, in order. *)
Record Document := mkDoc {
  location : pyfloat * pyfloat;
  heat : list (pyfloat * pyfloat);
  clusters : list (cell * list Marker);
  html : list str
}.

Inductive File :=
| Xlsx (df : DataFrame)
| Csv (table : list CacheRow)
| GeoJson (g : GeoFrame)
| Html (doc : Document).

Record State := mkState {
  net : World E;
  fs : gmap str File;
  trace : list Event
}.

(** A computation that reads and changes the state and may raise. *)
Definition M (A : Type) : Type := State -> result A * State.

Definition ret {A} (a : A) : M A := fun st => (Ok a, st).

Definition raise {A} (e : exn) : M A := fun st => (Raise e, st).

Definition bind {A B} (m : M A) (k : A -> M B) : M B := fun st =>
  match m st with
  | (Ok a, st') => k a st'
  | (Raise e, st') => (Raise e, st')
  end.

Notation "'let*' x ':=' m 'in' k" := (bind m (fun x => k))
  (at level 10, x pattern, m at level 100, k at level 200).

Definition lift {A} (r : result A) : M A := fun st => (r, st).

Definition emit (ev : Event) (st : State) : State :=
  {| net := net st; fs := fs st; trace := trace st ++ [ev] |}.

(** A [for] loop that carries the value [s]. *)
Fixpoint for_each {A S} (body : S -> A -> M S) (l : list A) (s : S) : M S :=
  match l with
  | [] => ret s
  | a :: r => let* s' := body s a in for_each body r s'
  end.

(** ** The geocoding cache *)

(** The rows [_save_cache] builds, one per item; each reads the clock. *)
Fixpoint cache_rows (c : pydict) (w : World E) : list CacheRow * World E :=
  match c with
  | [] => ([], w)
  | (k, v) :: r =>
      let '(ts, w1) := strftime E w in
      let '(rest, w2) := cache_rows r w1 in
      ({| address := k; lat := v.1; lon := v.2; timestamp_iso := ts |} :: rest, w2)
  end.

Definition _save_cache (c : pydict) (path : str) : M unit := fun st =>
  let '(table, w) := cache_rows c (net st) in
  (Ok tt, {| net := w;
             fs := <[path := Csv table]> (fs st);
             trace := trace st ++ [EvToCsv path table] |}).

(** The dict a cache table loads as (a later row of an address wins). *)
Definition cache_of_table (table : list CacheRow) : pydict :=
  fold_left (fun c r => dict_set c (address r) (lat r, lon r)) table [].

(** Lines 36-39: the dict built from the cache file when it exists. *)
Definition read_cache (cache_path : str) : M pydict := fun st =>
  match fs st !! cache_path with
  | None => (Ok [], st)
  | Some (Csv table) =>
      (Ok (cache_of_table table), emit (EvReadCsv cache_path) st)
  | Some _ => (Raise (ParserError cache_path), emit (EvReadCsv cache_path) st)
  end.

(** [geo_osm(q)] and [geo_arc(q)]. *)
Definition geo (g : Provider) (min_delay : Q) (q : str) : M (option Location) :=
  fun st =>
    let '(loc, w) := geocode E g min_delay q (net st) in
    (Ok loc, {| net := w; fs := fs st; trace := trace st ++ [EvGeocode g q] |}).

(** [geo_osm(q) or geo_arc(q)]. *)
Definition osm_or_arc (min_delay : Q) (q : str) : M (option Location) :=
  let* loc := geo OSM min_delay q in
  match loc with
  | Some l => ret (Some l)
  | None => geo ARC min_delay q
  end.

(** [addr in cache and not pd.isna(cache[addr][0])]. *)
Definition cached (cache : pydict) (addr : str) : bool :=
  match dict_get cache addr with
  | Some (la, _) => negb (float_isna la)
  | None => false
  end.

Definition q_full (city_hint addr : str) : str :=
  normalize_address addr ++ py ", " ++ city_hint.

Definition q_street (city_hint addr : str) : str :=
  normalize_address (street_only addr) ++ py ", " ++ city_hint.

Definition coords (loc : option Location) : pyfloat * pyfloat :=
  match loc with
  | Some l => (latitude l, longitude l)
  | None => (NaN, NaN)
  end.

(** The body of the loop of [geocode_addresses], lines 48-58. *)
Definition geocode_step (city_hint cache_path : str) (min_delay : Q)
    (cache : pydict) (addr : cell) : M pydict :=
  match addr with
  | CStr a =>
      if cached cache a then ret cache
      else
        let* loc := osm_or_arc min_delay (q_full city_hint a) in
        let* loc :=
          match loc with
          | Some l => ret (Some l)
          | None => osm_or_arc min_delay (q_street city_hint a)
          end in
        let cache' := dict_set cache a (coords loc) in
        let* _ :=
          if (length cache' mod 100 =? 0)%nat
          then _save_cache cache' cache_path else ret tt in
        ret cache'
  | _ => raise AttributeError
  end.

(** The value [cache.get(a, (nan, nan))] for the address cell [a]. *)
Definition cache_get (cache : pydict) (a : cell) : pyfloat * pyfloat :=
  match a with
  | CStr k => default (NaN, NaN) (dict_get cache k)
  | _ => (NaN, NaN)
  end.

(** Lines 60-61: the columns [lat] and [lon], each mapped from the address
    column as it stands when the assignment runs. *)
Definition with_coordinates (df : DataFrame) (address_col : str) (cache : pydict)
    : DataFrame :=
  let df := set_column df (py "lat")
              (fun r => CFloat (cache_get cache (cell_of r address_col)).1) in
  let df := set_column df (py "lon")
              (fun r => CFloat (cache_get cache (cell_of r address_col)).2) in
  df.

(** The loop of [geocode_addresses] over the addresses [addrs]. *)
Definition geocode_loop (city_hint cache_path : str) (min_delay : Q)
    (addrs : list cell) (cache : pydict) : M pydict :=
  for_each (geocode_step city_hint cache_path min_delay) addrs cache.

(** The providers and queries in the order the fallback tries them, and the
    search through such a list: the calls made, the first location found and
    the world afterwards. *)
Definition fallback_plan (city_hint addr : str) : list (Provider * str) :=
  [(OSM, q_full city_hint addr); (ARC, q_full city_hint addr);
   (OSM, q_street city_hint addr); (ARC, q_street city_hint addr)].

Fixpoint try_in_order (min_delay : Q) (plan : list (Provider * str)) (w : World E)
    : list Event * option Location * World E :=
  match plan with
  | [] => ([], None, w)
  | (g, q) :: rest =>
      match geocode E g min_delay q w with
      | (Some l, w') => ([EvGeocode g q], Some l, w')
      | (None, w') =>
          let '(evs, loc, w'') := try_in_order min_delay rest w' in
          (EvGeocode g q :: evs, loc, w'')
      end
  end.

Definition geocode_addresses (df : DataFrame) (address_col city_hint cache_path : str)
    (min_delay : Q) : M DataFrame :=
  let* cache := read_cache cache_path in
  let* col := lift (getitem df address_col) in
  let* cache :=
    geocode_loop city_hint cache_path min_delay (unique (dropna col)) cache in
  let* _ := _save_cache cache cache_path in
  ret (with_coordinates df address_col cache).

(** ** Points and the spatial join *)

(** Map a fallible function over a list, stopping at the first exception. *)
Fixpoint result_map {A B} (f : A -> result B) (l : list A) : result (list B) :=
  match l with
  | [] => Ok []
  | a :: r =>
      match f a with
      | Raise e => Raise e
      | Ok b =>
          match result_map f r with
          | Raise e => Raise e
          | Ok bs => Ok (b :: bs)
          end
      end
  end.

(** [Point(xy) if not (pd.isna(xy[0]) or pd.isna(xy[1])) else None]. *)
Definition point_or_none (x y : cell) : result cell :=
  if isna x || isna y then Ok CNone
  else
    let coord c := match c with CFloat v => Some v | _ => to_float E c end in
    match coord x, coord y with
    | Some a, Some b => Ok (CGeom (mkPoint a b))
    | _, _ => Raise TypeError
    end.

Definition with_geometry (r : Row) : result Row :=
  match point_or_none (cell_of r (py "lon")) (cell_of r (py "lat")) with
  | Ok g => Ok (<[py "geometry" := g]> r)
  | Raise e => Raise e
  end.

Definition to_gdf (df : DataFrame) : result DataFrame :=
  if negb (bool_decide (py "lon" ∈ columns df)) then Raise (KeyError (py "lon"))
  else if negb (bool_decide (py "lat" ∈ columns df)) then Raise (KeyError (py "lat"))
  else
    match result_map with_geometry (rows df) with
    | Raise e => Raise e
    | Ok rs =>
        Ok {| columns := if bool_decide (py "geometry" ∈ columns df)
                         then columns df else columns df ++ [py "geometry"];
              rows := List.filter
                        (fun r => negb (isna (cell_of r (py "geometry")))) rs |}
    end.

(** A row of the joined frame: the row of the left frame, and the index and
    the name of the polygon that holds its point, if any. *)
Record JoinedRow := mkJoined {
  left : Row;
  index_right : option nat;
  Osiedle : cell
}.

Record JoinedFrame := mkJoinedFrame {
  jcolumns : list str;
  jrows : list JoinedRow
}.

(** The polygons that hold [p], with their positions. *)
Fixpoint matches (p : Point) (i : nat) (fs : list (Row * Geom E))
    : list (nat * Row) :=
  match fs with
  | [] => []
  | (props, g) :: r =>
      if within E p g then (i, props) :: matches p (S i) r
      else matches p (S i) r
  end.

(** The rows a left join with predicate [within] gives for one point row. *)
Definition join_row (polys : GeoFrame) (name_col : str) (r : Row)
    : list JoinedRow :=
  let unmatched :=
    [{| left := r; index_right := None; Osiedle := CFloat NaN |}] in
  match cell_of r (py "geometry") with
  | CGeom p =>
      match matches p O (features polys) with
      | [] => unmatched
      | ms => List.map (fun m => {| left := r; index_right := Some m.1;
                                    Osiedle := cell_of m.2 name_col |}) ms
      end
  | _ => unmatched
  end.

Definition spatial_join (pts : DataFrame) (polys : GeoFrame) (name_col : str)
    : result JoinedFrame :=
  if bool_decide (name_col ∈ gcolumns polys)
  then Ok {| jcolumns := columns pts;
             jrows := flat_map (join_row polys name_col) (rows pts) |}
  else Raise (KeyError name_col).

(** ** HTML helpers *)

Definition nl : str := [10].
Definition dq : str := [34].

(** [str(n)] for a count. *)
Definition decimal (n : nat) : str :=
  py (DecimalString.NilZero.string_of_uint (Nat.to_uint n)).

(** A value inside an f-string. *)
Definition fmt (c : cell) : str :=
  match c with
  | CStr s => s
  | _ => format_value E c
  end.

Definition build_sidebar (counts_df : list (cell * nat)) : str :=
  let tbody :=
    concat (List.map (fun r =>
      py "<tr data-os='" ++ fmt r.1 ++ py "'><td>" ++ fmt r.1
      ++ py "</td><td class='cnt' style='text-align:right'>" ++ decimal r.2
      ++ py "</td></tr>") counts_df) in
  py "<div id='sidebar' style='position:fixed;top:70px;left:10px;width:280px;max-height:80vh;overflow:auto;z-index:999999;background:white;border-radius:8px;padding:10px 14px;box-shadow:0 0 15px rgba(0,0,0,.2);font-size:14px;'>" ++ nl
  ++ py "  <h4 style='margin:0 0 6px 0;'>Punkty z alkoholem<br><small>wg osiedli</small></h4>" ++ nl
  ++ py "  <table id='osTable' class='display' style='width:100%'>" ++ nl
  ++ py "    <thead><tr><th>Osiedle</th><th>Liczba</th></tr></thead>" ++ nl
  ++ py "    <tbody>" ++ tbody ++ py "</tbody>" ++ nl
  ++ py "  </table>" ++ nl
  ++ py "  <hr>" ++ nl
  ++ py "  <h4 style='margin:6px 0;'>Filtr typu</h4>" ++ nl
  ++ py "  <div id='typeFilters'></div>" ++ nl
  ++ py "</div>" ++ nl
  ++ py "<link rel='stylesheet' href='https://cdn.datatables.net/1.13.7/css/jquery.dataTables.min.css'>" ++ nl
  ++ py "<script src='https://code.jquery.com/jquery-3.7.0.min.js'></script>" ++ nl
  ++ py "<script src='https://cdn.datatables.net/1.13.7/js/jquery.dataTables.min.js'></script>".

(** [",".join(l)]. *)
Fixpoint join_comma (l : list str) : str :=
  match l with
  | [] => []
  | [a] => a
  | a :: r => a ++ py "," ++ join_comma r
  end.

Definition build_interactivity_js (categories : list cell)
    (counts_json : list (cell * list (cell * nat))) : str :=
  let cats := join_comma (List.map (json_dumps E) categories) in
  let counts_js := json_dumps_table E counts_json in
  py "<script>" ++ nl
  ++ py "$(function(){" ++ nl
  ++ py "  var table = $('#osTable').DataTable({ paging:false, order:[[1,'desc']] });" ++ nl
  ++ py "  var osLayers={};" ++ nl
  ++ py "  map.eachLayer(function(l){ if(l.feature && l.feature.properties && l.feature.properties.Osiedle) osLayers[l.feature.properties.Osiedle]=l;});" ++ nl
  ++ py "  $('#osTable tbody').on('click','tr',function(){" ++ nl
  ++ py "     var os=$(this).data('os'); var layer=osLayers[os];" ++ nl
  ++ py "     if(layer){ map.fitBounds(layer.getBounds()); layer.setStyle({weight:3,color:'#000'}); setTimeout(()=>geojson.resetStyle(layer),1500); }" ++ nl
  ++ py "  });" ++ nl
  ++ nl
  ++ py "  // Kategorie" ++ nl
  ++ py "  var cats=[" ++ cats ++ py "];" ++ nl
  ++ py "  cats.forEach(c=>$('#typeFilters').append(`<div><label><input type=" ++ dq ++ py "checkbox" ++ dq
  ++ py " class=" ++ dq ++ py "cat-filter" ++ dq ++ py " value=" ++ dq ++ py "${c}" ++ dq
  ++ py " checked> ${c}</label></div>`));" ++ nl
  ++ nl
  ++ py "  var countsData=" ++ counts_js ++ py ";" ++ nl
  ++ py "  var selectedCats=new Set(cats);" ++ nl
  ++ nl
  ++ py "  function updateCounts(){" ++ nl
  ++ py "     $('#osTable tbody tr').each(function(){" ++ nl
  ++ py "        var os=$(this).data('os');" ++ nl
  ++ py "        var total=0;" ++ nl
  ++ py "        selectedCats.forEach(c=>{ if(countsData[os] && countsData[os][c]) total+=countsData[os][c]; });" ++ nl
  ++ py "        $('td.cnt',this).text(total);" ++ nl
  ++ py "     });" ++ nl
  ++ py "     table.order([[1,'desc']]).draw(false);" ++ nl
  ++ py "  }" ++ nl
  ++ nl
  ++ py "  $('.cat-filter').on('change',function(){" ++ nl
  ++ py "     var cat=$(this).val();" ++ nl
  ++ py "     if(this.checked) selectedCats.add(cat); else selectedCats.delete(cat);" ++ nl
  ++ py "     // toggle layer visibility" ++ nl
  ++ py "     if(catLayers[cat]) {" ++ nl
  ++ py "        if(this.checked) map.addLayer(catLayers[cat]); else map.removeLayer(catLayers[cat]);" ++ nl
  ++ py "     }" ++ nl
  ++ py "     updateCounts();" ++ nl
  ++ py "  });" ++ nl
  ++ py "});" ++ nl
  ++ py "</script>".

(** ** The map *)

(** [pts[col]] on the joined frame. *)
Definition jcell (r : JoinedRow) (col : str) : cell :=
  if bool_decide (col = py "Osiedle") then Osiedle r else cell_of (left r) col.

Definition jhas (pts : JoinedFrame) (col : str) : bool :=
  bool_decide (col = py "Osiedle") || bool_decide (col ∈ jcolumns pts).

(** [r.get(col, '')]. *)
Definition jget (pts : JoinedFrame) (r : JoinedRow) (col : str) : cell :=
  if jhas pts col then jcell r col else CStr [].

(** [[r.geometry.y, r.geometry.x]]. *)
Definition geometry_yx (r : JoinedRow) : result (pyfloat * pyfloat) :=
  match cell_of (left r) (py "geometry") with
  | CGeom p => Ok (pt_y p, pt_x p)
  | _ => Raise AttributeError
  end.

Definition count_where {A} (p : A -> bool) (l : list A) : nat :=
  length (List.filter p l).

(** [pts.groupby('Osiedle').size().reset_index(name='count')]. *)
Definition group_sizes (pts : JoinedFrame) : list (cell * nat) :=
  let names := List.map Osiedle (jrows pts) in
  List.map (fun k => (k, count_where (fun c => bool_decide (c = k)) names))
           (sorted E (unique (dropna names))).

(** [pts.pivot_table(index='Osiedle', columns='Rodzaj', aggfunc='size',
    fill_value=0).to_dict(orient='index')]. *)
Definition pivot_sizes (pts : JoinedFrame) : list (cell * list (cell * nat)) :=
  let full := List.filter (fun r => negb (isna (Osiedle r))
                                    && negb (isna (jcell r (py "Rodzaj"))))
                          (jrows pts) in
  let names := sorted E (unique (List.map Osiedle full)) in
  let cats := sorted E (unique (List.map (fun r => jcell r (py "Rodzaj")) full)) in
  List.map (fun o =>
    (o, List.map (fun c =>
          (c, count_where (fun r => bool_decide (Osiedle r = o)
                                    && bool_decide (jcell r (py "Rodzaj") = c))
                          full)) cats)) names.

Definition marker (pts : JoinedFrame) (r : JoinedRow) : result Marker :=
  match geometry_yx r with
  | Raise e => Raise e
  | Ok yx =>
      Ok {| position := yx;
            popup := py "<b>" ++ fmt (jget pts r (py "Nazwa punktu"))
                     ++ py "</b><br>" ++ fmt (jget pts r (py "Adres punktu"))
                     ++ py "<br>" ++ fmt (jget pts r (py "Rodzaj"))
                     ++ py "<br><i>" ++ fmt (jget pts r (py "Osiedle"))
                     ++ py "</i>" |}
  end.

(** The marker cluster of one category. *)
Definition cluster (pts : JoinedFrame) (cat : cell) : result (cell * list Marker) :=
  match result_map (marker pts)
          (List.filter (fun r => bool_decide (jcell r (py "Rodzaj") = cat))
                       (jrows pts)) with
  | Raise e => Raise e
  | Ok ms => Ok (cat, ms)
  end.

(** [catLayers['{cat}']=map._layers[{fg._id}];] for each category. *)
Fixpoint cat_layers_js (i : nat) (categories : list cell) : list str :=
  match categories with
  | [] => []
  | cat :: r =>
      (py "catLayers['" ++ fmt cat ++ py "']=map._layers[" ++ element_id E i
       ++ py "];") :: cat_layers_js (S i) r
  end.

(** [folium.Element(text)]: the text is compiled as a Jinja2 template. *)
Definition Element (text : str) : M str :=
  if jinja_parses E text then ret text else raise TemplateSyntaxError.

(** [m.save(outfile)]. *)
Definition save (outfile : str) (doc : Document) : M unit := fun st =>
  (Ok tt, {| net := net st;
             fs := <[outfile := Html doc]> (fs st);
             trace := trace st ++ [EvSave outfile] |}).

Definition build_map (pts : JoinedFrame) (osd : GeoFrame) (name_col : str)
    (start : pyfloat * pyfloat) (outfile : str) : M unit :=
  let counts := group_sizes pts in
  let* heat_data := lift (result_map geometry_yx (jrows pts)) in
  let* rodzaj :=
    lift (if jhas pts (py "Rodzaj")
          then Ok (List.map (fun r => jcell r (py "Rodzaj")) (jrows pts))
          else Raise (KeyError (py "Rodzaj"))) in
  let categories := sorted E (unique (dropna rodzaj)) in
  let counts_per_os_cat := pivot_sizes pts in
  let* layers := lift (result_map (cluster pts) categories) in
  let* sidebar := Element (build_sidebar (sort_values_desc E counts)) in
  let* cat_script :=
    Element (py "<script>var catLayers={{}};</script>"
             ++ concat (cat_layers_js O categories)) in
  let* js := Element (build_interactivity_js categories counts_per_os_cat) in
  save outfile {| location := start; heat := heat_data; clusters := layers;
                  html := [sidebar; cat_script; js] |}.

(** ** The program *)

(** The parsed command line. *)
Record Args := mkArgs {
  excel : str; osiedla : str; out : str; cache : str; name_col : str
}.

(** [pd.read_excel(path)]. *)
Definition read_excel (path : str) : M DataFrame := fun st =>
  match fs st !! path with
  | None => (Raise (FileNotFoundError path), st)
  | Some (Xlsx df) => (Ok df, emit (EvReadExcel path) st)
  | Some _ => (Raise (ParserError path), emit (EvReadExcel path) st)
  end.

(** [gpd.read_file(path)]. *)
Definition read_file (path : str) : M GeoFrame := fun st =>
  match fs st !! path with
  | None => (Raise (FileNotFoundError path), st)
  | Some (GeoJson g) => (Ok g, emit (EvReadGeo path) st)
  | Some _ => (Raise (ParserError path), emit (EvReadGeo path) st)
  end.

Definition Adres_punktu : str := py "Adres punktu".

(** ['Łódź, Polska']. *)
Definition Lodz_Polska : str := [321; 243; 100; 378] ++ py ", Polska".

(** The points of the geometry column. *)
Definition geometries (pts : JoinedFrame) : list Point :=
  omap (fun r => match cell_of (left r) (py "geometry") with
                 | CGeom p => Some p
                 | _ => None
                 end) (jrows pts).

(** Lines 201-205 of [main]: from the frame with coordinates to the map. *)
Definition map_from_frame (a : Args) (df : DataFrame) : M unit :=
  let* pts := lift (to_gdf df) in
  let* osd := read_file (osiedla a) in
  let* pts := lift (spatial_join pts osd (name_col a)) in
  let cent :=
    match jrows pts with
    | [] => mkPoint (Num (Qmake 19458 1000)) (Num (Qmake 51759 1000))
    | _ => centroid E (geometries pts)
    end in
  build_map pts osd (name_col a) (pt_y cent, pt_x cent) (out a).

Definition main (a : Args) : M unit :=
  let* df := read_excel (excel a) in
  let* df :=
    if negb (bool_decide (py "lat" ∈ columns df))
       || negb (bool_decide (py "lon" ∈ columns df))
    then geocode_addresses df Adres_punktu Lodz_Polska (cache a) 1%Q
    else ret df in
  map_from_frame a df.

(** ** Properties to state *)

(** The first location the fallback finds for [a] from the state [st], and
    the state after its provider calls (before any periodic save). *)
Definition found (city_hint : str) (min_delay : Q) (a : str) (st : State)
    : option Location :=
  (try_in_order min_delay (fallback_plan city_hint a) (net st)).1.2.

Definition after_lookup (city_hint : str) (min_delay : Q) (a : str) (st : State)
    : State :=
  {| net := (try_in_order min_delay (fallback_plan city_hint a) (net st)).2;
     fs := fs st;
     trace := trace st
              ++ (try_in_order min_delay (fallback_plan city_hint a) (net st)).1.1 |}.

(** No provider ever finds the address [a], in any state of the world. *)
Definition never_found (city_hint : str) (min_delay : Q) (a : str) : Prop :=
  forall g w, (geocode E g min_delay (q_full city_hint a) w).1 = None
              /\ (geocode E g min_delay (q_street city_hint a) w).1 = None.

(** The dict [geocode_addresses] starts from in the state [st]. *)
Definition loaded_cache (cache_path : str) (st : State) : pydict :=
  match fs st !! cache_path with
  | Some (Csv table) => cache_of_table table
  | _ => []
  end.

(** The addresses the cache may be keyed by: those of the cache file as it
    was in the state [st], and the strings of the address column as they are. *)
Definition raw_address (cache_path : str) (df : DataFrame) (col : str)
    (st : State) (k : str) : Prop :=
  (exists table, fs st !! cache_path = Some (Csv table)
                 /\ k ∈ List.map address table)
  \/ (exists r, r ∈ rows df /\ cell_of r col = CStr k).

(** The events of the geocoding stage: provider calls, the read of the cache
    file, and saves of the cache file whose addresses all satisfy [key_ok]. *)
Definition geocoding_event (cache_path : str) (key_ok : str -> Prop)
    (ev : Event) : Prop :=
  match ev with
  | EvGeocode _ _ => True
  | EvToCsv p table =>
      p = cache_path /\ forall k, k ∈ List.map address table -> key_ok k
  | EvReadCsv p => p = cache_path
  | _ => False
  end.

(** The computation [m] only appends events that satisfy [ev_ok] and only
    changes files whose path satisfies [path_ok], whatever its result. *)
Definition footprint {A} (path_ok : str -> Prop) (ev_ok : Event -> Prop)
    (m : M A) : Prop :=
  forall st r st', m st = (r, st') ->
    (exists evs, trace st' = trace st ++ evs /\ Forall ev_ok evs)
    /\ (forall p, ~ path_ok p -> fs st' !! p = fs st !! p).

End Defs.


(** Whether [needle] starts [hay], and whether it occurs in it. *)
Fixpoint starts_with (needle hay : str) : bool :=
  match needle, hay with
  | [], _ => true
  | _ :: _, [] => false
  | a :: n', b :: h' => (a =? b) && starts_with n' h'
  end.

Fixpoint contains (needle hay : str) : bool :=
  starts_with needle hay
  || match hay with
     | [] => false
     | _ :: h' => contains needle h'
     end.



(** Transliteration of the Polish letters; other code points above 127 are
    dropped, and none of them counts as a letter or a digit. *)
Definition polish_translit (c : N) : str :=
  match c with
  | 260 => [65] | 261 => [97] | 262 => [67] | 263 => [99]
  | 280 => [69] | 281 => [101] | 321 => [76] | 322 => [108]
  | 323 => [78] | 324 => [110] | 211 => [79] | 243 => [111]
  | 346 => [83] | 347 => [115] | 377 => [90] | 378 => [122]
  | 379 => [90] | 380 => [122]
  | _ => []
  end.

Definition polish_letter (c : N) : bool :=
  match polish_translit c with [] => false | _ => true end.

(** A small world to run the program in: two services that each know one
    query, a clock that counts its readings, rectangles as polygons. *)
Record Box := mkBox { x_min : Q; x_max : Q; y_min : Q; y_max : Q }.

Definition in_box (p : Point) (b : Box) : bool :=
  match pt_x p, pt_y p with
  | Num x, Num y =>
      Qle_bool (x_min b) x && Qle_bool x (x_max b)
      && Qle_bool (y_min b) y && Qle_bool y (y_max b)
  | _, _ => false
  end.

Definition demo_geocode (g : Provider) (d : Q) (q : str) (w : nat)
    : option Location * nat :=
  (match g with
   | OSM =>
       if bool_decide (q = py "Piotrkowska 104, " ++ [321; 243; 100; 378] ++ py ", Polska")
       then Some (mkLoc (Num (Qmake 51760 1000)) (Num (Qmake 19458 1000)))
       else None
   | ARC =>
       if bool_decide (q = py "Narutowicza, " ++ [321; 243; 100; 378] ++ py ", Polska")
       then Some (mkLoc (Num (Qmake 51770 1000)) (Num (Qmake 19470 1000)))
       else None
   end, S w).

Definition demo : Extern := {|
  uni_isalnum := polish_letter;
  uni_isdecimal := fun _ => false;
  uni_translit := polish_translit;
  World := nat;
  geocode := demo_geocode;
  strftime := fun w => (py "2025-01-01T00:00:0" ++ decimal w, S w);
  Geom := Box;
  within := in_box;
  centroid := fun l => List.hd (mkPoint NaN NaN) l;
  to_float := fun _ => None;
  sorted := fun l => l;
  sort_values_desc := fun l => l;
  format_value := fun _ => py "nan";
  json_dumps := fun c => match c with CStr s => dq ++ s ++ dq | _ => py "NaN" end;
  json_dumps_table := fun _ => py "{}";
  element_id := fun n => py "layer" ++ decimal n;
  jinja_parses := fun _ => true;
|}.

(** ** A sample run

    Four shops, one without an address; the first address twice. *)
Definition demo_row (adres rodzaj nazwa : cell) : Row :=
  <[py "Adres punktu" := adres]>
    (<[py "Rodzaj" := rodzaj]> (<[py "Nazwa punktu" := nazwa]> ∅)).

Definition demo_df : DataFrame := {|
  columns := [py "Nazwa punktu"; py "Adres punktu"; py "Rodzaj"];
  rows := [ demo_row (CStr (py "ul. Piotrkowska 104")) (CStr (py "sklep")) (CStr (py "A"));
            demo_row (CStr (py "ul. Narutowicza 7 lok. 2")) (CStr (py "bar")) (CStr (py "B"));
            demo_row (CStr (py "Nieznana 1")) (CStr (py "bar")) (CStr (py "C"));
            demo_row (CStr (py "ul. Piotrkowska 104")) (CStr (py "bar")) (CStr (py "D"));
            demo_row (CFloat NaN) (CStr (py "bar")) (CStr (py "E")) ]
|}.

(** The same shops with their coordinates already in the spreadsheet. *)
Definition demo_df_located : DataFrame := {|
  columns := columns demo_df ++ [py "lat"; py "lon"];
  rows := List.map (fun r => <[py "lat" := CFloat (Num (Qmake 51760 1000))]>
                               (<[py "lon" := CFloat (Num (Qmake 19458 1000))]> r))
                   (rows demo_df)
|}.

Definition demo_osd : GeoFrame demo :=
  @mkGeo demo [py "name"; py "geometry"]
    [ (<[py "name" := CStr (py "Polesie")]> ∅,
       mkBox 19 (Qmake 1945 100) 51 52);
      (<[py "name" := CStr (py "Srodmiescie")]> ∅,
       mkBox (Qmake 1945 100) (Qmake 1950 100) 51 52) ].

Definition demo_args : Args := {|
  excel := py "lista.xlsx"; osiedla := py "osiedla.geojson";
  out := py "mapa_v6.html"; cache := py "geocode_cache.csv";
  name_col := py "name"
|}.

Definition demo_state : State demo := {|
  net := O : World demo;
  fs := <[py "lista.xlsx" := Xlsx demo demo_df]>
          (<[py "osiedla.geojson" := GeoJson demo demo_osd]> ∅);
  trace := []
|}.

(** A cache left by an earlier run: one success and one failure. *)
Definition demo_cache : list CacheRow :=
  [ mkCacheRow (py "ul. Piotrkowska 104") (Num (Qmake 51760 1000))
               (Num (Qmake 19458 1000)) (py "2024-12-31T23:59:59");
    mkCacheRow (py "Nieznana 1") NaN NaN (py "2024-12-31T23:59:59") ].



(** [geocode_addresses] as [main] calls it, from a state. *)
Definition demo_geocode_run (st : State demo) : result DataFrame * State demo :=
  geocode_addresses demo demo_df Adres_punktu Lodz_Polska (py "geocode_cache.csv") 1%Q st.

Definition frame_of (r : result DataFrame) : DataFrame :=
  match r with Ok df => df | Raise _ => demo_df end.


(** Whether a result is a value. *)
Definition is_ok {A} (r : result A) : bool :=
  match r with Ok _ => true | Raise _ => false end.

(** ** Further properties to state *)

(** Provider calls among the events. *)
Definition is_call (ev : Event) : bool :=
  match ev with EvGeocode _ _ => true | _ => false end.

(** The row has both coordinates ([to_gdf] keeps it). *)
Definition has_coordinates (r : Row) : bool :=
  negb (isna (cell_of r (py "lon"))) && negb (isna (cell_of r (py "lat"))).

(** The polygons of [polys] that hold the point of the row [r]. *)
Definition holders (E : Extern) (polys : GeoFrame E) (r : Row) : nat :=
  match cell_of r (py "geometry") with
  | CGeom p => length (matches E p O (features E polys))
  | _ => O
  end.

(** The point frame has no column that [sjoin] and the renaming to
    [Osiedle] would clash with: [sjoin] adds [index_right] and the name
    column, and puts a suffix on a name that both frames have. *)
Definition join_names_free (pts : DataFrame) (name_col : str) : bool :=
  negb (bool_decide (name_col ∈ columns pts))
  && negb (bool_decide (name_col = py "geometry"))
  && negb (bool_decide (py "Osiedle" ∈ columns pts))
  && negb (bool_decide (py "index_right" ∈ columns pts)).

(** The sample world with a template compiler that rejects an empty
    expression. *)
Definition demo_strict : Extern := {|
  uni_isalnum := uni_isalnum demo;
  uni_isdecimal := uni_isdecimal demo;
  uni_translit := uni_translit demo;
  World := World demo;
  geocode := geocode demo;
  strftime := strftime demo;
  Geom := Geom demo;
  within := within demo;
  centroid := centroid demo;
  to_float := to_float demo;
  sorted := sorted demo;
  sort_values_desc := sort_values_desc demo;
  format_value := format_value demo;
  json_dumps := json_dumps demo;
  json_dumps_table := json_dumps_table demo;
  element_id := element_id demo;
  jinja_parses := fun text => negb (contains (py "{{}}") text);
|}.

(** The value of a result, or [d] when it raised. *)
Definition value_or {A} (d : A) (r : result A) : A :=
  match r with Ok a => a | Raise _ => d end.

(** The points and the join of the sample spreadsheet with coordinates. *)
Definition demo_pts : DataFrame :=
  value_or demo_df (to_gdf demo demo_df_located).

Definition demo_joined : JoinedFrame :=
  value_or {| jcolumns := []; jrows := [] |}
           (spatial_join demo demo_pts demo_osd (py "name")).

(** The first row of the join. *)
Definition demo_first_joined : JoinedRow :=
  nth 0 (jrows demo_joined) {| left := ∅; index_right := None; Osiedle := CNone |}.

(** A cache that answers every address of the sample spreadsheet. *)
Definition demo_full_cache : list CacheRow :=
  demo_cache
  ++ [ mkCacheRow (py "Nieznana 1") (Num (Qmake 51700 1000))
                  (Num (Qmake 19400 1000)) (py "2025-01-02T00:00:00");
       mkCacheRow (py "ul. Narutowicza 7 lok. 2") (Num (Qmake 51770 1000))
                  (Num (Qmake 19470 1000)) (py "2025-01-02T00:00:00") ].

Definition demo_full_state : State demo := {|
  net := O : World demo;
  fs := <[py "geocode_cache.csv" := Csv demo demo_full_cache]> (fs demo demo_state);
  trace := []
|}.


(** The sample inputs in the world of [demo_strict]. *)
Definition demo_strict_state : State demo_strict := {|
  net := O : World demo_strict;
  fs := <[py "lista.xlsx" := Xlsx demo_strict demo_df_located]>
          (<[py "osiedla.geojson" :=
               GeoJson demo_strict
                 (@mkGeo demo_strict (gcolumns demo demo_osd) (features demo demo_osd))]> ∅);
  trace := []
|}.

(** A state with no file at all. *)
Definition demo_empty_state : State demo :=
  {| net := O : World demo; fs := ∅; trace := [] |}.

(** * Proofs *)

(** ** Strings *)

Section StringFacts.
Context (E : Extern).

Lemma re_sub_from_Forall (P : N -> Prop) (m : matcher) (repl : str) :
  Forall P repl ->
  forall (s : str) (k : nat) (prev : option N),
    Forall P s -> Forall P (re_sub_from m repl k prev s).
Proof.
  intros Hrepl s; induction s as [|c r IH]; intros k prev Hs; simpl.
  - constructor.
  - inversion Hs as [|? ? Hc Hr]; subst.
    destruct k as [|k].
    + destruct (m prev (c :: r)) as [[|n]|].
      * constructor; auto.
      * apply Forall_app; split; auto.
      * constructor; auto.
    + auto.
Qed.

Lemma lstrip_Forall (P : N -> Prop) (s : str) :
  Forall P s -> Forall P (lstrip s).
Proof.
  unfold lstrip. induction 1 as [|c r Hc Hr IH]; simpl; [constructor|].
  destruct (is_space c); simpl; auto.
Qed.

Lemma rstrip_Forall (P : N -> Prop) (s : str) :
  Forall P s -> Forall P (rstrip s).
Proof.
  induction 1 as [|c r Hc Hr IH]; simpl; [constructor|].
  destruct (rstrip r) as [|x r'].
  - destruct (is_space c); auto.
  - constructor; auto.
Qed.

Lemma strip_Forall (P : N -> Prop) (s : str) :
  Forall P s -> Forall P (strip s).
Proof. intros H. apply rstrip_Forall, lstrip_Forall, H. Qed.

Lemma forallb_Forall_ascii (s : str) :
  forallb is_ascii s = true <-> Forall (fun c => is_ascii c = true) s.
Proof.
  induction s as [|c r IH]; simpl.
  - split; [constructor | reflexivity].
  - rewrite andb_true_iff, IH. split.
    + intros [? ?]; constructor; auto.
    + inversion 1; auto.
Qed.

Lemma unidecode_ascii (s : str) :
  forallb is_ascii s = true -> unidecode E s = s.
Proof. intros H. unfold unidecode. rewrite H. reflexivity. Qed.

Lemma rstrip_rstrip (s : str) : rstrip (rstrip s) = rstrip s.
Proof.
  induction s as [|c r IH]; simpl; [reflexivity|].
  destruct (rstrip r) as [|x r'] eqn:Hr.
  - destruct (is_space c) eqn:Hc; simpl; [reflexivity|].
    rewrite Hc. reflexivity.
  - change (rstrip (c :: x :: r')) with
      (match rstrip (x :: r') with
       | [] => if is_space c then [] else [c]
       | y :: r'' => c :: y :: r''
       end).
    rewrite IH. reflexivity.
Qed.

Lemma lstrip_cases (s : str) :
  lstrip s = [] \/ exists c r, lstrip s = c :: r /\ is_space c = false.
Proof.
  unfold lstrip. induction s as [|c r IH]; simpl; [left; reflexivity|].
  destruct (is_space c) eqn:Hc; simpl; [exact IH|].
  right. exists c, r. auto.
Qed.

Lemma rstrip_cons_nonspace (c : N) (r : str) :
  is_space c = false -> exists r', rstrip (c :: r) = c :: r'.
Proof.
  intros Hc. simpl. destruct (rstrip r) as [|x r'].
  - rewrite Hc. eexists; reflexivity.
  - eexists; reflexivity.
Qed.

Lemma lstrip_cons_nonspace (c : N) (r : str) :
  is_space c = false -> lstrip (c :: r) = c :: r.
Proof. intros Hc. unfold lstrip. simpl. rewrite Hc. reflexivity. Qed.

Lemma strip_strip (s : str) : strip (strip s) = strip s.
Proof.
  unfold strip. destruct (lstrip_cases s) as [H | (c & r & H & Hc)]; rewrite H.
  - reflexivity.
  - destruct (rstrip_cons_nonspace c r Hc) as [r' Hr'].
    rewrite Hr', (lstrip_cons_nonspace c r' Hc), <- Hr'.
    apply rstrip_rstrip.
Qed.

Lemma spaced_lstrip (s : str) (b b' : bool) :
  spaced b s = true -> spaced b' (lstrip s) = true.
Proof.
  revert b. unfold lstrip. induction s as [|c r IH]; intros b H; simpl in *.
  - reflexivity.
  - destruct (is_space c) eqn:Hc; simpl.
    + apply andb_true_iff in H as [_ H]. eauto.
    + rewrite Hc. exact H.
Qed.

Lemma spaced_rstrip (s : str) (b : bool) :
  spaced b s = true -> spaced b (rstrip s) = true.
Proof.
  revert b. induction s as [|c r IH]; intros b H; simpl in *; [reflexivity|].
  destruct (is_space c) eqn:Hc.
  - apply andb_true_iff in H as [H1 H2]. specialize (IH _ H2).
    destruct (rstrip r) as [|x r']; [reflexivity|].
    simpl. rewrite Hc, H1. exact IH.
  - specialize (IH _ H).
    destruct (rstrip r) as [|x r']; simpl; rewrite Hc; [reflexivity | exact IH].
Qed.

Lemma spaced_strip (s : str) (b : bool) :
  spaced b s = true -> spaced false (strip s) = true.
Proof.
  intros H. apply spaced_rstrip, (spaced_lstrip s b), H.
Qed.



(** The output of the collapsing substitution, in both of its modes. *)
Lemma collapse_spaced_from (s : str) :
  forall prev,
    spaced true (re_sub_from m_ws [32] (span_len is_space s) prev s) = true
    /\ (forall b, (b = true -> span_len is_space s = O) ->
          spaced b (re_sub_from m_ws [32] O prev s) = true).
Proof.
  induction s as [|c r IH]; intros prev; simpl.
  - split; reflexivity.
  - destruct (is_space c) eqn:Hc.
    + split.
      * apply IH.
      * intros b Hb. destruct b; [specialize (Hb eq_refl); discriminate|].
        unfold m_ws. simpl. rewrite Hc. simpl.
        apply (proj1 (IH (Some c))).
    + assert (H : forall b, spaced b (re_sub_from m_ws [32] O prev (c :: r)) = true).
      { intros b. simpl. unfold m_ws. simpl. rewrite Hc. simpl. rewrite Hc.
        apply (proj2 (IH (Some c))). discriminate. }
      split; [apply (H true) | intros b _; apply H].
Qed.

Lemma collapse_spaced (s : str) : spaced false (re_sub m_ws [32] s) = true.
Proof. apply (proj2 (collapse_spaced_from s None)). discriminate. Qed.

Lemma remove_tokens_ascii (s : str) :
  forallb is_ascii s = true -> forallb is_ascii (remove_tokens E s) = true.
Proof.
  rewrite !forallb_Forall_ascii. intros H. unfold remove_tokens, re_sub.
  repeat apply re_sub_from_Forall; auto.
Qed.

(** On ASCII input the result is the stripped, collapsed string left by the
    three removals. *)
Lemma normalize_address_ascii (s : str) :
  forallb is_ascii s = true ->
  normalize_address E s = strip (re_sub m_ws [32] (remove_tokens E (strip s)))
  /\ forallb is_ascii (normalize_address E s) = true.
Proof.
  intros H.
  assert (H1 : forallb is_ascii (re_sub m_ws [32] (remove_tokens E (strip s))) = true).
  { apply forallb_Forall_ascii. unfold re_sub.
    apply re_sub_from_Forall; [repeat constructor|].
    apply forallb_Forall_ascii, remove_tokens_ascii, forallb_Forall_ascii.
    apply strip_Forall, forallb_Forall_ascii, H. }
  assert (H2 : normalize_address E s
               = strip (re_sub m_ws [32] (remove_tokens E (strip s)))).
  { unfold normalize_address. fold (remove_tokens E (strip s)).
    rewrite (unidecode_ascii _ H1). reflexivity. }
  split; [exact H2|].
  rewrite H2. apply forallb_Forall_ascii, strip_Forall, forallb_Forall_ascii, H1.
Qed.


End StringFacts.

(** ** The model against Python's [re] on sample strings *)

Example normalize_address_samples :
  List.map (fun s => normalize_address demo (py s))
    ["ul. Piotrkowska 5 lok. 3"; "Ulula 5"; "lok."; "a lok. 5 x"; "ul.ul.x";
     "lok.lok 5"; "plok 5"; "paw.5"; "xlok 4 ul"]%string
  = List.map py
    ["Piotrkowska 5"; "ula 5"; EmptyString; "a x"; "x";
     "5"; "plok 5"; EmptyString; "xlok 4"]%string.
Proof. vm_compute. reflexivity. Qed.

Example street_only_samples :
  List.map (street_only demo)
    [py "ul. 6 Sierpnia 10"; py "Piotrkowska 5 m 3"; py "6 Sierpnia";
     py "Piotrkowska 5" ++ [10]; py "a 5" ++ [10; 10]]
  = [py "ul."; py "Piotrkowska"; py "6 Sierpnia"; py "Piotrkowska"; py "a 5"].
Proof. vm_compute. reflexivity. Qed.

(** ** The cache *)

Section DictFacts.

Lemma dict_get_set_eq (c : pydict) k v : dict_get (dict_set c k v) k = Some v.
Proof.
  induction c as [|[k' v'] r IH]; simpl.
  - rewrite decide_True; auto.
  - destruct (decide (k' = k)); simpl.
    + rewrite decide_True; auto.
    + rewrite decide_False; auto.
Qed.

Lemma dict_get_set_ne (c : pydict) k k' v :
  k <> k' -> dict_get (dict_set c k v) k' = dict_get c k'.
Proof.
  intros Hne. induction c as [|[k0 v0] r IH]; simpl.
  - rewrite decide_False; auto.
  - destruct (decide (k0 = k)) as [->|]; simpl.
    + rewrite !decide_False; auto.
    + destruct (decide (k0 = k')); auto.
Qed.

Lemma elem_of_keys_dict_set (c : pydict) k v k' :
  k' ∈ keys (dict_set c k v) <-> k' = k \/ k' ∈ keys c.
Proof.
  unfold keys. induction c as [|[k0 v0] r IH]; simpl.
  - rewrite list_elem_of_singleton, elem_of_nil. tauto.
  - destruct (decide (k0 = k)) as [->|]; simpl.
    + rewrite !elem_of_cons. tauto.
    + rewrite !elem_of_cons, IH. tauto.
Qed.

Lemma NoDup_keys_dict_set (c : pydict) k v :
  NoDup (keys c) -> NoDup (keys (dict_set c k v)).
Proof.
  unfold keys. induction c as [|[k0 v0] r IH]; simpl; intros H.
  - apply NoDup_singleton.
  - apply NoDup_cons in H as [Hin Hr].
    destruct (decide (k0 = k)) as [->|Hne]; simpl.
    + apply NoDup_cons; auto.
    + apply NoDup_cons. split; [|auto].
      intros Hin'. apply (elem_of_keys_dict_set r k v k0) in Hin'.
      destruct Hin' as [->|]; auto.
Qed.

Lemma dict_get_Some_keys (c : pydict) k v :
  dict_get c k = Some v -> k ∈ keys c.
Proof.
  unfold keys. induction c as [|[k0 v0] r IH]; simpl; [discriminate|].
  destruct (decide (k0 = k)) as [->|]; intros H.
  - apply elem_of_cons; auto.
  - apply elem_of_cons; auto.
Qed.

Lemma keys_dict_get (c : pydict) k :
  k ∈ keys c -> exists v, dict_get c k = Some v.
Proof.
  unfold keys. induction c as [|[k0 v0] r IH]; simpl; intros H.
  - apply elem_of_nil in H as [].
  - destruct (decide (k0 = k)); [eauto|].
    apply elem_of_cons in H as [->|H]; [congruence | auto].
Qed.

Lemma dict_get_In (c : pydict) k v :
  dict_get c k = Some v -> (k, v) ∈ c.
Proof.
  induction c as [|[k0 v0] r IH]; simpl; [discriminate|].
  destruct (decide (k0 = k)) as [->|]; intros H.
  - injection H as ->. apply elem_of_cons; auto.
  - apply elem_of_cons; auto.
Qed.

Lemma fold_dict_set_keys (table : list CacheRow) (c : pydict) k :
  k ∈ keys (fold_left (fun c r => dict_set c (address r) (lat r, lon r)) table c)
  <-> k ∈ keys c \/ k ∈ List.map address table.
Proof.
  revert c. induction table as [|r t IH]; intros c; simpl.
  - rewrite elem_of_nil. tauto.
  - rewrite IH, elem_of_keys_dict_set, elem_of_cons. tauto.
Qed.

Lemma fold_dict_set_NoDup (table : list CacheRow) (c : pydict) :
  NoDup (keys c) ->
  NoDup (keys (fold_left (fun c r => dict_set c (address r) (lat r, lon r)) table c)).
Proof.
  revert c. induction table as [|r t IH]; intros c H; simpl; auto.
  apply IH, NoDup_keys_dict_set, H.
Qed.

Lemma keys_cache_of_table (table : list CacheRow) k :
  k ∈ keys (cache_of_table table) <-> k ∈ List.map address table.
Proof.
  unfold cache_of_table. rewrite fold_dict_set_keys.
  unfold keys; simpl. rewrite elem_of_nil. tauto.
Qed.

Lemma NoDup_cache_of_table (table : list CacheRow) :
  NoDup (keys (cache_of_table table)).
Proof. apply fold_dict_set_NoDup. constructor. Qed.

End DictFacts.

Section GeocodeFacts.
Context (E : Extern).

(** What [_save_cache] writes holds the items of the dict, in order. *)
Lemma cache_rows_items (c : pydict) (w : World E) :
  List.map (fun r => (address r, (lat r, lon r))) (cache_rows E c w).1 = c.
Proof.
  revert w. induction c as [|[k [la lo]] r IH]; intros w; simpl; [reflexivity|].
  destruct (strftime E w) as [ts w1].
  specialize (IH w1). destruct (cache_rows E r w1) as [rest w2].
  simpl in *. rewrite IH. reflexivity.
Qed.

Lemma cache_rows_address (c : pydict) (w : World E) :
  List.map address (cache_rows E c w).1 = keys c.
Proof.
  unfold keys. rewrite <- (cache_rows_items c w) at 2.
  rewrite List.map_map. reflexivity.
Qed.

Lemma bind_Ok {A B} (m : M E A) (k : A -> M E B) st b st' :
  bind E m k st = (Ok b, st') ->
  exists a st1, m st = (Ok a, st1) /\ k a st1 = (Ok b, st').
Proof.
  unfold bind. destruct (m st) as [[a|e] st1]; intros H.
  - eauto.
  - discriminate.
Qed.

Lemma save_cache_run (c : pydict) (path : str) (st : State E) :
  _save_cache E c path st
  = (Ok tt, {| net := (cache_rows E c (net E st)).2;
               fs := <[path := Csv E (cache_rows E c (net E st)).1]> (fs E st);
               trace := trace E st ++ [EvToCsv path (cache_rows E c (net E st)).1] |}).
Proof.
  unfold _save_cache. destruct (cache_rows E c (net E st)). reflexivity.
Qed.

Lemma osm_or_arc_run (d : Q) (q : str) (st : State E) :
  osm_or_arc E d q st
  = (Ok (try_in_order E d [(OSM, q); (ARC, q)] (net E st)).1.2,
     {| net := (try_in_order E d [(OSM, q); (ARC, q)] (net E st)).2;
        fs := fs E st;
        trace := trace E st ++ (try_in_order E d [(OSM, q); (ARC, q)] (net E st)).1.1 |}).
Proof.
  unfold osm_or_arc, bind, geo, ret. simpl.
  destruct (geocode E OSM d q (net E st)) as [[l|] w1]; simpl; [reflexivity|].
  destruct (geocode E ARC d q w1) as [[l|] w2]; simpl;
    rewrite <- app_assoc; reflexivity.
Qed.

End GeocodeFacts.

Section StepFacts.
Context (E : Extern) (city path : str) (d : Q).

Lemma step_cached (c : pydict) (a : str) (st : State E) :
  cached c a = true -> geocode_step E city path d c (CStr a) st = (Ok c, st).
Proof. intros H. unfold geocode_step. rewrite H. reflexivity. Qed.

Lemma step_uncached (c : pydict) (a : str) (st : State E) :
  cached c a = false ->
  geocode_step E city path d c (CStr a) st
  = (Ok (dict_set c a (coords (found E city d a st))),
     if (length (dict_set c a (coords (found E city d a st))) mod 100 =? 0)%nat
     then (_save_cache E (dict_set c a (coords (found E city d a st))) path (after_lookup E city d a st)).2
     else after_lookup E city d a st).
Proof.
  intros H. unfold geocode_step. rewrite H.
  unfold found, after_lookup, fallback_plan, bind.
  rewrite osm_or_arc_run. simpl.
  destruct (geocode E OSM d (q_full E city a) (net E st)) as [[l1|] w1]; simpl.
  - unfold ret. destruct (_ =? _)%nat; [|reflexivity].
    rewrite save_cache_run. reflexivity.
  - destruct (geocode E ARC d (q_full E city a) w1) as [[l2|] w2]; simpl.
    + unfold ret. destruct (_ =? _)%nat; [|reflexivity].
      rewrite save_cache_run. reflexivity.
    + rewrite osm_or_arc_run. simpl.
      destruct (geocode E OSM d (q_street E city a) w2) as [[l3|] w3]; simpl.
      * rewrite <- !app_assoc. simpl.
        unfold ret. destruct (_ =? _)%nat; [|reflexivity].
        rewrite save_cache_run. reflexivity.
      * destruct (geocode E ARC d (q_street E city a) w3) as [[l4|] w4]; simpl;
          rewrite <- !app_assoc; simpl;
          unfold ret; (destruct (_ =? _)%nat; [|reflexivity]);
          rewrite save_cache_run; reflexivity.
Qed.

Lemma step_Ok_str (c : pydict) (x : cell) st c' st' :
  geocode_step E city path d c x st = (Ok c', st') -> exists a, x = CStr a.
Proof. destruct x; simpl; try discriminate. eauto. Qed.

Lemma cached_in_keys (c : pydict) (a : str) : cached c a = true -> a ∈ keys c.
Proof.
  unfold cached. destruct (dict_get c a) as [[la lo]|] eqn:H; [|discriminate].
  intros _. eapply dict_get_Some_keys, H.
Qed.

Lemma step_result (c : pydict) (a : str) st c' st' :
  geocode_step E city path d c (CStr a) st = (Ok c', st') ->
  (cached c a = true /\ c' = c /\ st' = st)
  \/ (cached c a = false /\ c' = dict_set c a (coords (found E city d a st))).
Proof.
  destruct (cached c a) eqn:H.
  - rewrite step_cached by auto. intros [= <- <-]. left; auto.
  - rewrite step_uncached by auto. intros [= <- _]. right; auto.
Qed.

Lemma step_keys (c : pydict) (x : cell) st c' st' :
  geocode_step E city path d c x st = (Ok c', st') ->
  forall k, k ∈ keys c' <-> k ∈ keys c \/ x = CStr k.
Proof.
  intros H k. destruct (step_Ok_str _ _ _ _ _ H) as [a ->].
  destruct (step_result _ _ _ _ _ H) as [(Hc & -> & _) | (Hc & ->)].
  - split; [auto|]. intros [?|[= ->]]; auto using cached_in_keys.
  - rewrite elem_of_keys_dict_set. split.
    + intros [->|?]; auto.
    + intros [?|[= ->]]; auto.
Qed.

Lemma step_NoDup (c : pydict) (x : cell) st c' st' :
  geocode_step E city path d c x st = (Ok c', st') -> NoDup (keys c) -> NoDup (keys c').
Proof.
  intros H Hnd. destruct (step_Ok_str _ _ _ _ _ H) as [a ->].
  destruct (step_result _ _ _ _ _ H) as [(Hc & -> & _) | (Hc & ->)]; auto.
  apply NoDup_keys_dict_set, Hnd.
Qed.

Lemma step_get_other (c : pydict) (x : cell) (a : str) st c' st' :
  geocode_step E city path d c x st = (Ok c', st') -> x <> CStr a -> dict_get c' a = dict_get c a.
Proof.
  intros H Hne. destruct (step_Ok_str _ _ _ _ _ H) as [b ->].
  destruct (step_result _ _ _ _ _ H) as [(Hc & -> & _) | (Hc & ->)]; auto.
  apply dict_get_set_ne. congruence.
Qed.

Lemma geocoding_event_weaken (P Q' : str -> Prop) ev :
  (forall k, P k -> Q' k) -> geocoding_event path P ev -> geocoding_event path Q' ev.
Proof. destruct ev; simpl; auto. intros H [? ?]; split; auto. Qed.

Lemma try_in_order_events plan w (P : str -> Prop) :
  Forall (geocoding_event path P) (try_in_order E d plan w).1.1.
Proof.
  revert w. induction plan as [|[g q] r IH]; intros w; simpl; [constructor|].
  destruct (geocode E g d q w) as [[l|] w1]; simpl.
  - repeat constructor.
  - specialize (IH w1). destruct (try_in_order E d r w1) as [[evs loc] w2].
    simpl in *. constructor; [exact I | exact IH].
Qed.

Lemma save_cache_footprint (c : pydict) (P : str -> Prop) :
  (forall k, k ∈ keys c -> P k) ->
  footprint E (fun p => p = path) (geocoding_event path P) (_save_cache E c path).
Proof.
  intros HP st r st'. rewrite save_cache_run. intros [= <- <-]. simpl. split.
  - eexists; split; [reflexivity|]. constructor; [|constructor].
    split; [reflexivity|]. intros k. rewrite cache_rows_address. apply HP.
  - intros p Hp. apply lookup_insert_ne. congruence.
Qed.

Lemma step_footprint (c : pydict) (x : cell) :
  footprint E (fun p => p = path)
    (geocoding_event path (fun k => k ∈ keys c \/ x = CStr k)) (geocode_step E city path d c x).
Proof.
  intros st r st' H. destruct x as [a| | |];
    try (injection H as <- <-; split; [exists []; rewrite app_nil_r; auto|auto]).
  destruct (cached c a) eqn:Hc.
  - rewrite step_cached in H by auto. injection H as <- <-.
    split; [exists []; rewrite app_nil_r; auto|auto].
  - rewrite step_uncached in H by auto. injection H as <- <-.
    destruct (_ =? _)%nat.
    + rewrite save_cache_run. unfold after_lookup; cbn [trace fs net snd]. split.
      * eexists. rewrite <- app_assoc. split; [reflexivity|].
        apply Forall_app. split; [apply try_in_order_events|].
        constructor; [|constructor]. split; [reflexivity|].
        intros k. rewrite cache_rows_address.
        rewrite elem_of_keys_dict_set. intros [->|?]; auto.
      * intros p Hp. apply lookup_insert_ne. congruence.
    + unfold after_lookup; cbn [trace fs net]. split; [|auto].
      eexists. split; [reflexivity|]. apply try_in_order_events.
Qed.

End StepFacts.

Section LoopFacts.
Context (E : Extern) (city path : str) (d : Q).

Lemma loop_cons (x : cell) (l : list cell) (c : pydict) (st : State E) :
  geocode_loop E city path d (x :: l) c st
  = match geocode_step E city path d c x st with
    | (Ok c1, st1) => geocode_loop E city path d l c1 st1
    | (Raise e, st1) => (Raise e, st1)
    end.
Proof. reflexivity. Qed.

Lemma loop_cons_Ok x l c st c' st' :
  geocode_loop E city path d (x :: l) c st = (Ok c', st') ->
  exists c1 st1, geocode_step E city path d c x st = (Ok c1, st1) /\ geocode_loop E city path d l c1 st1 = (Ok c', st').
Proof.
  rewrite loop_cons. destruct (geocode_step E city path d c x st) as [[c1|e] st1]; [eauto|discriminate].
Qed.

Lemma loop_keys l c st c' st' :
  geocode_loop E city path d l c st = (Ok c', st') ->
  forall k, k ∈ keys c' <-> k ∈ keys c \/ CStr k ∈ l.
Proof.
  revert c st. induction l as [|x l IH]; intros c st H k.
  - injection H as <- <-. rewrite elem_of_nil. tauto.
  - apply loop_cons_Ok in H as (c1 & st1 & Hs & Hl).
    rewrite (IH _ _ Hl k), (step_keys E city path d _ _ _ _ _ Hs k), elem_of_cons.
    split; [intros [[?|?]|?] | intros [?|[?|?]]]; auto.
Qed.

Lemma loop_NoDup l c st c' st' :
  geocode_loop E city path d l c st = (Ok c', st') -> NoDup (keys c) -> NoDup (keys c').
Proof.
  revert c st. induction l as [|x l IH]; intros c st H Hnd.
  - injection H as <- <-. exact Hnd.
  - apply loop_cons_Ok in H as (c1 & st1 & Hs & Hl).
    eapply IH; [exact Hl|]. eapply step_NoDup; eauto.
Qed.

Lemma loop_Ok_str l c st c' st' :
  geocode_loop E city path d l c st = (Ok c', st') -> forall x, x ∈ l -> exists a, x = CStr a.
Proof.
  revert c st. induction l as [|x l IH]; intros c st H y Hy.
  - apply elem_of_nil in Hy as [].
  - apply loop_cons_Ok in H as (c1 & st1 & Hs & Hl).
    apply elem_of_cons in Hy as [->|Hy].
    + eapply step_Ok_str, Hs.
    + eapply IH; eauto.
Qed.


Lemma footprint_ret {A} (P : str -> Prop) (Q0 : Event -> Prop) (a : A) :
  footprint E P Q0 (ret E a).
Proof.
  intros st r st' [= <- <-]. split; [|auto].
  exists []. rewrite app_nil_r. auto.
Qed.

Lemma footprint_raise {A} (P : str -> Prop) (Q0 : Event -> Prop) (e : exn) :
  footprint E P Q0 (raise E e : M E A).
Proof.
  intros st r st' [= <- <-]. split; [|auto].
  exists []. rewrite app_nil_r. auto.
Qed.



Lemma loop_footprint l c :
  footprint E (fun p => p = path)
    (geocoding_event path (fun k => k ∈ keys c \/ CStr k ∈ l)) (geocode_loop E city path d l c).
Proof.
  revert c. induction l as [|x l IH]; intros c.
  - apply footprint_ret.
  - intros st r st' H. rewrite loop_cons in H.
    destruct (geocode_step E city path d c x st) as [[c1|e] st1] eqn:Es.
    + destruct (step_footprint E city path d c x _ _ _ Es) as [(evs1 & Ht1 & Hev1) Hfs1].
      destruct (IH c1 _ _ _ H) as [(evs2 & Ht2 & Hev2) Hfs2].
      split.
      * exists (evs1 ++ evs2). rewrite Ht2, Ht1, app_assoc. split; [reflexivity|].
        apply Forall_app. split.
        -- eapply Forall_impl; [exact Hev1|]. intros ev.
           apply geocoding_event_weaken. intros k [?| ->]; auto.
           right. apply elem_of_cons; auto.
        -- eapply Forall_impl; [exact Hev2|]. intros ev.
           apply geocoding_event_weaken. intros k [Hk|Hk].
           ++ apply (step_keys E city path d _ _ _ _ _ Es) in Hk as [?| ->]; auto.
              right. apply elem_of_cons; auto.
           ++ right. apply elem_of_cons; auto.
      * intros p Hp. rewrite Hfs2, Hfs1; auto.
    + injection H as <- <-.
      destruct (step_footprint E city path d c x _ _ _ Es) as [(evs1 & Ht1 & Hev1) Hfs1].
      split; [|exact Hfs1]. exists evs1. split; [exact Ht1|].
      eapply Forall_impl; [exact Hev1|]. intros ev.
      apply geocoding_event_weaken. intros k [?| ->]; auto.
      right. apply elem_of_cons; auto.
Qed.

Lemma cached_ext (c c' : pydict) (a : str) :
  dict_get c' a = dict_get c a -> cached c' a = cached c a.
Proof. unfold cached. intros ->. reflexivity. Qed.

Lemma loop_get_other l c st c' st' (a : str) :
  geocode_loop E city path d l c st = (Ok c', st') -> CStr a ∉ l -> dict_get c' a = dict_get c a.
Proof.
  revert c st. induction l as [|x l IH]; intros c st H Hni.
  - injection H as <- <-. reflexivity.
  - apply loop_cons_Ok in H as (c1 & st1 & Hs & Hl).
    apply not_elem_of_cons in Hni as [Hne Hni].
    rewrite (IH _ _ Hl Hni). eapply step_get_other; eauto.
Qed.

(** An address the cache already answers can be struck off the work list. *)
Lemma loop_skip l c st (a : str) :
  cached c a = true ->
  geocode_loop E city path d l c st
  = geocode_loop E city path d (List.filter (fun x => negb (bool_decide (x = CStr a))) l) c st.
Proof.
  revert c st. induction l as [|x l IH]; intros c st Hc; [reflexivity|].
  simpl. destruct (bool_decide_reflect (x = CStr a)) as [-> |Hne]; simpl.
  - rewrite loop_cons, step_cached by exact Hc. apply IH, Hc.
  - rewrite !loop_cons. destruct (geocode_step E city path d c x st) as [[c1|e] st1] eqn:Es; [|reflexivity].
    apply IH. rewrite (cached_ext c c1 a); [exact Hc|].
    eapply step_get_other; eauto.
Qed.

Lemma never_found_found (a : str) (st : State E) :
  never_found E city d a -> found E city d a st = None.
Proof.
  intros H. unfold found, fallback_plan. simpl.
  pose proof (proj1 (H OSM (net E st))) as H1.
  destruct (geocode E OSM d (q_full E city a) (net E st)) as [r1 w1].
  simpl in H1; subst r1.
  pose proof (proj1 (H ARC w1)) as H2.
  destruct (geocode E ARC d (q_full E city a) w1) as [r2 w2].
  simpl in H2; subst r2.
  pose proof (proj2 (H OSM w2)) as H3.
  destruct (geocode E OSM d (q_street E city a) w2) as [r3 w3].
  simpl in H3; subst r3.
  pose proof (proj2 (H ARC w3)) as H4.
  destruct (geocode E ARC d (q_street E city a) w3) as [r4 w4].
  simpl in H4; subst r4. reflexivity.
Qed.

Lemma loop_failed l c st c' st' (a : str) :
  never_found E city d a ->
  geocode_loop E city path d l c st = (Ok c', st') ->
  cached c a = false ->
  CStr a ∈ l \/ dict_get c a = Some (NaN, NaN) ->
  dict_get c' a = Some (NaN, NaN).
Proof.
  intros Hnf. revert c st. induction l as [|x l IH]; intros c st H Hc Hin.
  - injection H as <- <-. destruct Hin as [Hin|?]; [|assumption].
    apply elem_of_nil in Hin as [].
  - apply loop_cons_Ok in H as (c1 & st1 & Hs & Hl).
    destruct (decide (x = CStr a)) as [-> |Hne].
    + destruct (step_result E city path d _ _ _ _ _ Hs) as [(Hc' & _) | (_ & Hc1)];
        [congruence|].
      rewrite never_found_found in Hc1 by exact Hnf. simpl in Hc1.
      assert (Hg : dict_get c1 a = Some (NaN, NaN))
        by (rewrite Hc1; apply dict_get_set_eq).
      eapply IH; [exact Hl | | right; exact Hg].
      unfold cached. rewrite Hg. reflexivity.
    + assert (Hg : dict_get c1 a = dict_get c a)
        by (eapply step_get_other; eauto).
      eapply IH; [exact Hl | rewrite (cached_ext c c1 a Hg); exact Hc |].
      destruct Hin as [Hin|Hin].
      * apply elem_of_cons in Hin as [<- |Hin]; [congruence | auto].
      * right. congruence.
Qed.

Lemma first_call (a : str) (w : World E) :
  exists rest,
    (try_in_order E d (fallback_plan E city a) w).1.1
    = EvGeocode OSM (q_full E city a) :: rest.
Proof.
  unfold fallback_plan. simpl.
  repeat match goal with
         | |- context [geocode E ?g d ?q ?w0] =>
             destruct (geocode E g d q w0) as [[?|] ?]; simpl
         end; eexists; reflexivity.
Qed.

Lemma loop_retry l c st c' st' (a : str) :
  geocode_loop E city path d l c st = (Ok c', st') ->
  cached c a = false -> CStr a ∈ l ->
  exists evs, trace E st' = trace E st ++ evs
              /\ EvGeocode OSM (q_full E city a) ∈ evs.
Proof.
  revert c st. induction l as [|x l IH]; intros c st H Hc Hin.
  - apply elem_of_nil in Hin as [].
  - apply loop_cons_Ok in H as (c1 & st1 & Hs & Hl).
    destruct (decide (x = CStr a)) as [-> |Hne].
    + destruct (loop_footprint l c1 _ _ _ Hl) as [(evs2 & Ht2 & _) _].
      rewrite step_uncached in Hs by exact Hc.
      destruct (first_call a (net E st)) as [rest Hrest].
      assert (Ht1 : exists more, trace E st1
                = trace E st ++ (EvGeocode OSM (q_full E city a) :: rest) ++ more).
      { injection Hs as _ <-. destruct (_ =? _)%nat.
        - rewrite save_cache_run. unfold after_lookup. cbn [trace snd].
          rewrite Hrest, <- app_assoc. eexists; reflexivity.
        - unfold after_lookup. cbn [trace]. rewrite Hrest.
          exists []. rewrite app_nil_r. reflexivity. }
      destruct Ht1 as [more Ht1].
      eexists. rewrite Ht2, Ht1, <- !app_assoc. split; [reflexivity|].
      simpl. apply elem_of_cons; auto.
    + assert (Hg : dict_get c1 a = dict_get c a)
        by (eapply step_get_other; eauto).
      apply elem_of_cons in Hin as [<- |Hin]; [congruence|].
      destruct (IH _ _ Hl) as (evs2 & Ht2 & Hin2); auto.
      { rewrite (cached_ext c c1 a Hg). exact Hc. }
      destruct (step_footprint E city path d c x _ _ _ Hs) as [(evs1 & Ht1 & _) _].
      exists (evs1 ++ evs2). rewrite Ht2, Ht1, app_assoc. split; [reflexivity|].
      apply elem_of_app; auto.
Qed.

End LoopFacts.

Section RunFacts.
Context (E : Extern) (city path : str) (d : Q).

Lemma elem_of_map {A B} (f : A -> B) (l : list A) (y : B) :
  y ∈ List.map f l <-> exists x, y = f x /\ x ∈ l.
Proof.
  rewrite list_elem_of_In, in_map_iff. split; intros (x & H1 & H2); exists x.
  - rewrite list_elem_of_In; auto.
  - rewrite <- list_elem_of_In; auto.
Qed.

Lemma elem_of_filter' {A} (p : A -> bool) (l : list A) (x : A) :
  x ∈ List.filter p l <-> x ∈ l /\ p x = true.
Proof. rewrite !list_elem_of_In. apply filter_In. Qed.

Lemma elem_of_unique (x : cell) (l : list cell) : x ∈ unique l <-> x ∈ l.
Proof.
  induction l as [|y l IH]; simpl; [reflexivity|].
  rewrite !elem_of_cons, elem_of_filter', IH.
  destruct (decide (x = y)) as [->|Hne]; [tauto|].
  rewrite bool_decide_eq_false_2 by exact Hne. simpl. tauto.
Qed.

Lemma elem_of_dropna (x : cell) (l : list cell) :
  x ∈ dropna l <-> x ∈ l /\ isna x = false.
Proof.
  unfold dropna. rewrite elem_of_filter', negb_true_iff. reflexivity.
Qed.

(** The addresses on the work list are the strings of the address column. *)
Lemma work_list (df : DataFrame) (col : str) (a : str) :
  CStr a ∈ unique (dropna (List.map (fun r => cell_of r col) (rows df)))
  <-> exists r, r ∈ rows df /\ cell_of r col = CStr a.
Proof.
  rewrite elem_of_unique, elem_of_dropna, elem_of_map. split.
  - intros [(r & Hr & Hin) _]. eauto.
  - intros (r & Hin & Hr). split; [eauto|reflexivity].
Qed.

Lemma read_cache_Ok st c st0 :
  read_cache E path st = (Ok c, st0) ->
  c = loaded_cache E path st
  /\ (st0 = st \/ st0 = emit E (EvReadCsv path) st).
Proof.
  unfold read_cache, loaded_cache.
  destruct (fs E st !! path) as [[| | |]|]; intros [= <- <-]; auto.
Qed.

Lemma read_cache_footprint :
  footprint E (fun _ => False) (fun ev => ev = EvReadCsv path) (read_cache E path).
Proof.
  intros st r st'. unfold read_cache.
  destruct (fs E st !! path) as [[| | |]|]; intros [= <- <-]; simpl;
    (split; [|auto]);
    first [ exists []; rewrite app_nil_r; split; [reflexivity | constructor]
          | eexists; split; [reflexivity | repeat constructor] ].
Qed.

Lemma geocode_addresses_Ok df col st df' st' :
  geocode_addresses E df col city path d st = (Ok df', st') ->
  exists st0 c1 st1,
    (st0 = st \/ st0 = emit E (EvReadCsv path) st)
    /\ bool_decide (col ∈ columns df) = true
    /\ geocode_loop E city path d
         (unique (dropna (List.map (fun r => cell_of r col) (rows df))))
         (loaded_cache E path st) st0 = (Ok c1, st1)
    /\ st' = (_save_cache E c1 path st1).2
    /\ df' = with_coordinates df col c1.
Proof.
  unfold geocode_addresses. intros H.
  apply bind_Ok in H as (c0 & st0 & Hr & H).
  apply bind_Ok in H as (cells & st0' & Hg & H).
  apply bind_Ok in H as (c1 & st1 & Hl & H).
  apply bind_Ok in H as ([] & st2 & Hs & H).
  injection H as <- <-.
  unfold lift, getitem in Hg.
  destruct (bool_decide (col ∈ columns df)) eqn:Hcol; [|discriminate].
  injection Hg as <- <-.
  apply read_cache_Ok in Hr as [-> Hst0].
  exists st0, c1, st1. repeat split; auto.
  rewrite Hs. reflexivity.
Qed.

Lemma dict_get_None (c : pydict) (k : str) : k ∉ keys c -> dict_get c k = None.
Proof.
  intros H. destruct (dict_get c k) eqn:Hg; [|reflexivity].
  exfalso. eapply H, dict_get_Some_keys, Hg.
Qed.

Lemma fold_dict_set_get (t : list CacheRow) (acc : pydict) (k : str) :
  NoDup (List.map address t) ->
  dict_get (fold_left (fun c r => dict_set c (address r) (lat r, lon r)) t acc) k
  = match dict_get (List.map (fun r => (address r, (lat r, lon r))) t) k with
    | Some v => Some v
    | None => dict_get acc k
    end.
Proof.
  revert acc. induction t as [|r t IH]; intros acc Hnd; simpl; [reflexivity|].
  apply NoDup_cons in Hnd as [Hni Hnd]. rewrite (IH _ Hnd).
  destruct (decide (address r = k)) as [<-|Hne].
  - rewrite dict_get_None.
    + apply dict_get_set_eq.
    + unfold keys. rewrite List.map_map. exact Hni.
  - rewrite dict_get_set_ne by exact Hne. reflexivity.
Qed.

(** Reading back what [_save_cache] wrote gives the dict that was saved. *)
Lemma cache_round_trip (c : pydict) (w : World E) (k : str) :
  NoDup (keys c) ->
  dict_get (cache_of_table (cache_rows E c w).1) k = dict_get c k.
Proof.
  intros Hnd. unfold cache_of_table. rewrite fold_dict_set_get.
  - rewrite cache_rows_items. destruct (dict_get c k); reflexivity.
  - rewrite cache_rows_address. exact Hnd.
Qed.

Lemma NoDup_loaded_cache st : NoDup (keys (loaded_cache E path st)).
Proof.
  unfold loaded_cache. destruct (fs E st !! path) as [[| | |]|];
    try apply NoDup_nil_2. apply NoDup_cache_of_table.
Qed.

Lemma cell_of_insert (r : Row) (k : str) (v : cell) : cell_of (<[k := v]> r) k = v.
Proof. unfold cell_of. rewrite lookup_insert_eq. reflexivity. Qed.

Lemma cell_of_insert_ne (r : Row) (k k' : str) (v : cell) :
  k <> k' -> cell_of (<[k := v]> r) k' = cell_of r k'.
Proof. intros H. unfold cell_of. rewrite lookup_insert_ne by exact H. reflexivity. Qed.

Lemma lat_ne_lon : py "lat" <> py "lon".
Proof. discriminate. Qed.

(** The coordinates a row gets: those the final cache holds for its address. *)
Lemma with_coordinates_row (df : DataFrame) (col : str) (c : pydict) (i : nat) (r : Row) :
  rows df !! i = Some r ->
  exists r', rows (with_coordinates df col c) !! i = Some r'
    /\ cell_of r' (py "lat") = CFloat (cache_get c (cell_of r col)).1
    /\ (col <> py "lat" ->
        cell_of r' (py "lon") = CFloat (cache_get c (cell_of r col)).2)
    /\ (cache_get c (cell_of r col) = (NaN, NaN) ->
        cell_of r' (py "lon") = CFloat NaN).
Proof.
  intros Hi. unfold with_coordinates, set_column. cbn [rows].
  rewrite List.map_map.
  change (List.map ?f (rows df)) with (f <$> rows df).
  rewrite list_lookup_fmap, Hi. cbn [fmap option_fmap option_map].
  eexists. split; [reflexivity|]. repeat split.
  - rewrite cell_of_insert_ne by (symmetry; exact lat_ne_lon).
    apply cell_of_insert.
  - intros Hne. rewrite cell_of_insert.
    rewrite cell_of_insert_ne by congruence. reflexivity.
  - intros Hnan. rewrite cell_of_insert.
    destruct (decide (py "lat" = col)) as [<-|Hne].
    + rewrite cell_of_insert. reflexivity.
    + rewrite cell_of_insert_ne by exact Hne. rewrite Hnan. reflexivity.
Qed.

End RunFacts.

Section JoinFacts.
Context (E : Extern).

Lemma result_map_Ok {A B} (f : A -> result B) (l : list A) (l' : list B) :
  result_map f l = Ok l' -> Forall2 (fun a b => f a = Ok b) l l'.
Proof.
  revert l'. induction l as [|a l IH]; intros l' H; simpl in H.
  - injection H as <-. constructor.
  - destruct (f a) as [b|e] eqn:Ha; [|discriminate].
    destruct (result_map f l) as [bs|e]; [|discriminate].
    injection H as <-. constructor; auto.
Qed.


Lemma with_geometry_Ok (r r' : Row) :
  with_geometry E r = Ok r' ->
  (r' = <[py "geometry" := CNone]> r
   /\ isna (cell_of r (py "lon")) || isna (cell_of r (py "lat")) = true)
  \/ (exists g, r' = <[py "geometry" := CGeom g]> r
      /\ isna (cell_of r (py "lon")) = false
      /\ isna (cell_of r (py "lat")) = false).
Proof.
  unfold with_geometry, point_or_none.
  destruct (isna (cell_of r (py "lon")) || isna (cell_of r (py "lat"))) eqn:Hna.
  - intros [= <-]. left; auto.
  - apply orb_false_iff in Hna as [H1 H2].
    destruct (match cell_of r (py "lon") with CFloat v => Some v | _ => _ end);
      [|discriminate].
    destruct (match cell_of r (py "lat") with CFloat v => Some v | _ => _ end);
      [|discriminate].
    intros [= <-]. right. eauto.
Qed.

Lemma geometry_ne_lat : py "geometry" <> py "lat".
Proof. discriminate. Qed.

Lemma geometry_ne_lon : py "geometry" <> py "lon".
Proof. discriminate. Qed.

(** The rows [to_gdf] keeps are rows of its input that have both
    coordinates, with their point attached. *)
Lemma to_gdf_rows (df pts : DataFrame) :
  to_gdf E df = Ok pts ->
  forall p, p ∈ rows pts ->
    exists r g, r ∈ rows df /\ p = <[py "geometry" := CGeom g]> r
                /\ isna (cell_of r (py "lon")) = false
                /\ isna (cell_of r (py "lat")) = false.
Proof.
  unfold to_gdf.
  destruct (negb (bool_decide (py "lon" ∈ columns df))); [discriminate|].
  destruct (negb (bool_decide (py "lat" ∈ columns df))); [discriminate|].
  destruct (result_map (with_geometry E) (rows df)) as [rs|e] eqn:Hrs; [|discriminate].
  intros [= <-] p Hp. cbn [rows] in Hp.
  apply elem_of_filter' in Hp as [Hp Hgeo].
  apply result_map_Ok in Hrs.
  apply list_elem_of_lookup in Hp as [i Hi].
  destruct (Forall2_lookup_r _ _ _ _ _ Hrs Hi) as (r & Hr & Hw).
  apply with_geometry_Ok in Hw as [[-> _] | (g & -> & H1 & H2)].
  - rewrite cell_of_insert in Hgeo. discriminate.
  - exists r, g. repeat split; auto. eapply list_elem_of_lookup_2, Hr.
Qed.

Lemma to_gdf_coordinates (df pts : DataFrame) :
  to_gdf E df = Ok pts ->
  forall p, p ∈ rows pts ->
    isna (cell_of p (py "lat")) = false /\ isna (cell_of p (py "lon")) = false.
Proof.
  intros H p Hp. destruct (to_gdf_rows _ _ H p Hp) as (r & g & _ & -> & H1 & H2).
  rewrite (cell_of_insert_ne _ _ _ _ geometry_ne_lat).
  rewrite (cell_of_insert_ne _ _ _ _ geometry_ne_lon). auto.
Qed.




End JoinFacts.

Section RunSpec.
Context (E : Extern) (city path : str) (d : Q).

Lemma step_file (c : pydict) (x : cell) st r st' :
  geocode_step E city path d c x st = (r, st') ->
  fs E st' !! path = fs E st !! path
  \/ exists table, fs E st' !! path = Some (Csv E table)
       /\ forall k, k ∈ List.map address table -> k ∈ keys c \/ x = CStr k.
Proof.
  intros H. destruct x as [a| | |]; try (injection H as <- <-; auto).
  destruct (cached c a) eqn:Hc.
  - rewrite step_cached in H by auto. injection H as <- <-. auto.
  - rewrite step_uncached in H by auto. injection H as <- <-.
    destruct (_ =? _)%nat; [|auto].
    right. rewrite save_cache_run. cbn [fs snd]. eexists.
    split; [apply lookup_insert_eq|].
    intros k. rewrite cache_rows_address, elem_of_keys_dict_set.
    intros [->|?]; auto.
Qed.

Lemma loop_file (l : list cell) (c : pydict) st r st' :
  geocode_loop E city path d l c st = (r, st') ->
  fs E st' !! path = fs E st !! path
  \/ exists table, fs E st' !! path = Some (Csv E table)
       /\ forall k, k ∈ List.map address table -> k ∈ keys c \/ CStr k ∈ l.
Proof.
  revert c st. induction l as [|x l IH]; intros c st H.
  - injection H as <- <-. auto.
  - rewrite loop_cons in H.
    destruct (geocode_step E city path d c x st) as [[c1|e] st1] eqn:Es.
    + destruct (IH _ _ H) as [Heq | (table & Ht & Hk)].
      * rewrite Heq. destruct (step_file _ _ _ _ _ Es) as [?|(table & Ht & Hk)]; auto.
        right. exists table. split; [exact Ht|].
        intros k Hin. destruct (Hk k Hin) as [?| ->]; auto.
        right. apply elem_of_cons; auto.
      * right. exists table. split; [exact Ht|].
        intros k Hin. destruct (Hk k Hin) as [Hk1|Hk1].
        -- apply (step_keys E city path d _ _ _ _ _ Es) in Hk1 as [?| ->]; auto.
           right. apply elem_of_cons; auto.
        -- right. apply elem_of_cons; auto.
    + injection H as <- <-.
      destruct (step_file _ _ _ _ _ Es) as [?|(table & Ht & Hk)]; auto.
      right. exists table. split; [exact Ht|].
      intros k Hin. destruct (Hk k Hin) as [?| ->]; auto.
      right. apply elem_of_cons; auto.
Qed.

Lemma keys_loaded_cache (st : State E) (k : str) :
  k ∈ keys (loaded_cache E path st)
  <-> exists table, fs E st !! path = Some (Csv E table) /\ k ∈ List.map address table.
Proof.
  unfold loaded_cache. destruct (fs E st !! path) as [[df|table|g|doc]|];
    try (unfold keys; simpl; rewrite elem_of_nil; split;
         [tauto | intros (t & [=] & _)]).
  rewrite keys_cache_of_table. split.
  - eauto.
  - intros (t & [= <-] & H). exact H.
Qed.

Lemma raw_address_intro df col st k :
  k ∈ keys (loaded_cache E path st)
  \/ CStr k ∈ unique (dropna (List.map (fun r => cell_of r col) (rows df))) ->
  raw_address E path df col st k.
Proof.
  intros [H|H]; [left; apply keys_loaded_cache, H | right; apply work_list, H].
Qed.

Lemma emit_or_same (st st0 : State E) :
  st0 = st \/ st0 = emit E (EvReadCsv path) st ->
  fs E st0 = fs E st
  /\ exists evs, trace E st0 = trace E st ++ evs
                 /\ Forall (fun ev => ev = EvReadCsv path) evs.
Proof.
  intros [->| ->]; (split; [reflexivity|]).
  - exists []. rewrite app_nil_r. auto.
  - eexists. split; [reflexivity|]. repeat constructor.
Qed.

Lemma read_cache_any st r st0 :
  read_cache E path st = (r, st0) ->
  (st0 = st \/ st0 = emit E (EvReadCsv path) st)
  /\ forall c, r = Ok c -> c = loaded_cache E path st.
Proof.
  unfold read_cache, loaded_cache.
  destruct (fs E st !! path) as [[| | |]|]; intros [= <- <-];
    (split; [auto|]); intros c [=]; auto.
Qed.

(** Every event and every state of the cache file that [geocode_addresses]
    leaves, whatever its result. *)
Lemma geocode_addresses_effects df col st r st' :
  geocode_addresses E df col city path d st = (r, st') ->
  (exists evs, trace E st' = trace E st ++ evs
               /\ Forall (geocoding_event path (raw_address E path df col st)) evs)
  /\ (forall table, fs E st' !! path = Some (Csv E table) ->
        forall k, k ∈ List.map address table -> raw_address E path df col st k)
  /\ (forall p, p <> path -> fs E st' !! p = fs E st !! p).
Proof.
  unfold geocode_addresses, bind. intros H.
  destruct (read_cache E path st) as [r0 st0] eqn:Hr.
  apply read_cache_any in Hr as [Hst0 Hc0].
  destruct (emit_or_same _ _ Hst0) as [Hfs0 (evs0 & Ht0 & Hev0)].
  assert (Hev0' : Forall (geocoding_event path (raw_address E path df col st)) evs0).
  { eapply Forall_impl; [exact Hev0|]. intros ev ->. reflexivity. }
  assert (Hold : forall table, fs E st0 !! path = Some (Csv E table) ->
            forall k, k ∈ List.map address table -> raw_address E path df col st k).
  { rewrite Hfs0. intros table Ht k Hk. left. eauto. }
  destruct r0 as [c0|e]; [|injection H as <- <-; rewrite Hfs0 in *; eauto 10].
  rewrite (Hc0 c0 eq_refl) in H. clear Hc0.
  unfold lift in H. destruct (getitem df col) as [cells|e] eqn:Hg;
    [|injection H as <- <-; rewrite Hfs0 in *; eauto 10].
  assert (Hcells : cells = List.map (fun r => cell_of r col) (rows df)).
  { unfold getitem in Hg. destruct (bool_decide _); congruence. }
  subst cells.
  destruct (geocode_loop E city path d _ _ st0) as [r1 st1] eqn:Hl.
  destruct (loop_footprint E city path d _ _ _ _ _ Hl) as [(evs1 & Ht1 & Hev1) Hfs1].
  assert (Hev1' : Forall (geocoding_event path (raw_address E path df col st)) evs1).
  { eapply Forall_impl; [exact Hev1|]. intros ev.
    apply geocoding_event_weaken. intros k. apply raw_address_intro. }
  assert (Hfile1 : forall table, fs E st1 !! path = Some (Csv E table) ->
            forall k, k ∈ List.map address table -> raw_address E path df col st k).
  { destruct (loop_file _ _ _ _ _ Hl) as [Heq|(table & Ht & Hk)].
    - rewrite Heq. exact Hold.
    - intros table' Ht' k Hin. rewrite Ht in Ht'. injection Ht' as <-.
      apply raw_address_intro, Hk, Hin. }
  destruct r1 as [c1|e].
  - rewrite save_cache_run in H. injection H as <- <-. cbn [trace fs].
    split; [|split].
    + eexists. rewrite Ht1, Ht0, <- !app_assoc. split; [reflexivity|].
      repeat (apply Forall_app; split); auto.
      constructor; [|constructor]. split; [reflexivity|].
      intros k. rewrite cache_rows_address. intros Hk.
      apply raw_address_intro.
      apply (loop_keys E city path d _ _ _ _ _ Hl). exact Hk.
    + intros table. rewrite lookup_insert_eq. intros [= <-] k.
      rewrite cache_rows_address. intros Hk. apply raw_address_intro.
      apply (loop_keys E city path d _ _ _ _ _ Hl). exact Hk.
    + intros p Hp. rewrite lookup_insert_ne by congruence.
      rewrite Hfs1, Hfs0; auto.
  - injection H as <- <-. split; [|split].
    + exists (evs0 ++ evs1). rewrite Ht1, Ht0, app_assoc. split; [reflexivity|].
      apply Forall_app; auto.
    + exact Hfile1.
    + intros p Hp. rewrite Hfs1, Hfs0; auto.
Qed.

(** What a successful run of [geocode_addresses] leaves behind. *)
Lemma geocode_addresses_result df col st df' st' :
  geocode_addresses E df col city path d st = (Ok df', st') ->
  exists (c1 : pydict) (table : list CacheRow) (evs : list Event),
    df' = with_coordinates df col c1
    /\ NoDup (keys c1)
    /\ (forall k, k ∈ keys c1 <->
          k ∈ keys (loaded_cache E path st)
          \/ exists r, r ∈ rows df /\ cell_of r col = CStr k)
    /\ List.map (fun r => (address r, (lat r, lon r))) table = c1
    /\ (forall k, dict_get (cache_of_table table) k = dict_get c1 k)
    /\ fs E st' = <[path := Csv E table]> (fs E st)
    /\ trace E st' = trace E st ++ evs ++ [EvToCsv path table]
    /\ (forall a, cached (loaded_cache E path st) a = true ->
          dict_get c1 a = dict_get (loaded_cache E path st) a)
    /\ (forall a r, never_found E city d a ->
          cached (loaded_cache E path st) a = false ->
          r ∈ rows df -> cell_of r col = CStr a ->
          dict_get c1 a = Some (NaN, NaN))
    /\ (forall a r, cached (loaded_cache E path st) a = false ->
          r ∈ rows df -> cell_of r col = CStr a ->
          EvGeocode OSM (q_full E city a) ∈ evs).
Proof.
  intros H. apply geocode_addresses_Ok in H
    as (st0 & c1 & st1 & Hst0 & Hcol & Hl & -> & ->).
  destruct (emit_or_same _ _ Hst0) as [Hfs0 (evs0 & Ht0 & _)].
  destruct (loop_footprint E city path d _ _ _ _ _ Hl) as [(evs1 & Ht1 & _) Hfs1].
  assert (Hnd : NoDup (keys c1)).
  { eapply loop_NoDup; [exact Hl|]. apply NoDup_loaded_cache. }
  exists c1, (cache_rows E c1 (net E st1)).1, (evs0 ++ evs1).
  rewrite save_cache_run. cbn [fs trace snd].
  repeat split.
  - exact Hnd.
  - intros Hk. apply (loop_keys E city path d _ _ _ _ _ Hl) in Hk as [?|Hk]; auto.
    right. apply work_list, Hk.
  - intros Hk. apply (loop_keys E city path d _ _ _ _ _ Hl).
    destruct Hk as [?|Hk]; auto. right. apply work_list, Hk.
  - apply cache_rows_items.
  - intros k. apply cache_round_trip, Hnd.
  - apply map_eq. intros p. destruct (decide (path = p)) as [<-|Hne].
    + rewrite !lookup_insert_eq. reflexivity.
    + rewrite !lookup_insert_ne by exact Hne. rewrite Hfs1, Hfs0; auto.
  - rewrite Ht1, Ht0, <- !app_assoc. reflexivity.
  - intros a Ha. rewrite (loop_skip E city path d _ _ _ a Ha) in Hl.
    eapply loop_get_other; [exact Hl|].
    rewrite elem_of_filter'. intros [_ Hf].
    rewrite bool_decide_eq_true_2 in Hf by reflexivity. discriminate.
  - intros a r Hnf Hc Hr Ha.
    eapply loop_failed; [exact Hnf | exact Hl | exact Hc |].
    left. apply work_list. eauto.
  - intros a r Hc Hr Ha.
    destruct (loop_retry E city path d _ _ _ _ _ a Hl Hc) as (evs & Ht & Hin).
    { apply work_list. eauto. }
    rewrite Ht1 in Ht. apply app_inv_head in Ht. subst evs.
    apply elem_of_app. auto.
Qed.

End RunSpec.

Section MainFacts.
Context (E : Extern).

Lemma contains_app_r (needle a b : str) :
  contains needle b = true -> contains needle (a ++ b) = true.
Proof.
  intros H. induction a as [|x a IH]; [exact H|].
  simpl. rewrite IH. apply orb_true_r.
Qed.


Lemma Element_Ok (text : str) st e st' :
  Element E text st = (Ok e, st') -> e = text /\ st' = st.
Proof.
  unfold Element. destruct (jinja_parses E text); intros [= <- <-]; auto.
Qed.

Lemma lift_Ok {A} (x : result A) st (a : A) st' :
  lift E x st = (Ok a, st') -> x = Ok a /\ st' = st.
Proof. unfold lift. intros [= -> <-]. auto. Qed.








Lemma geocode_addresses_footprint df col city path d :
  footprint E (fun p => p = path) (geocoding_event path (fun _ => True))
    (geocode_addresses E df col city path d).
Proof.
  intros st r st' H.
  destruct (geocode_addresses_effects E city path d _ _ _ _ _ H)
    as [(evs & Ht & Hev) [_ Hfs]].
  split.
  - exists evs. split; [exact Ht|]. eapply Forall_impl; [exact Hev|].
    intros ev. apply geocoding_event_weaken. auto.
  - intros p Hp. apply Hfs. exact Hp.
Qed.





End MainFacts.

Section Claims.
Context (E : Extern) (city path : str) (d : Q).







(** C3. Two rows of the input with the same address string get the same
    [lat] and the same [lon]: the pair the cache file holds for that address
    once [geocode_addresses] has returned. *)
Theorem same_address_same_coordinates
    (df df' : DataFrame) (col : str) (st st' : State E)
    (i j : nat) (ri rj : Row) (a : str) :
  geocode_addresses E df col city path d st = (Ok df', st') ->
  col <> py "lat" ->
  rows df !! i = Some ri -> rows df !! j = Some rj ->
  cell_of ri col = CStr a -> cell_of rj col = CStr a ->
  exists (la lo : pyfloat) (table : list CacheRow) (ri' rj' : Row),
    fs E st' !! path = Some (Csv E table)
    /\ dict_get (cache_of_table table) a = Some (la, lo)
    /\ rows df' !! i = Some ri' /\ rows df' !! j = Some rj'
    /\ cell_of ri' (py "lat") = CFloat la /\ cell_of ri' (py "lon") = CFloat lo
    /\ cell_of rj' (py "lat") = CFloat la /\ cell_of rj' (py "lon") = CFloat lo.
Proof.
  intros H Hcol Hi Hj Hai Haj.
  destruct (geocode_addresses_result E city path d _ _ _ _ _ H)
    as (c1 & table & evs & -> & Hnd & Hkeys & Hitems & Hget & Hfs & _).
  assert (Hin : a ∈ keys c1).
  { apply Hkeys. right. exists ri. split; [|exact Hai].
    eapply list_elem_of_lookup_2, Hi. }
  destruct (keys_dict_get _ _ Hin) as [[la lo] Hg].
  destruct (with_coordinates_row df col c1 i ri Hi) as (ri' & Hi' & Hlat_i & Hlon_i & _).
  destruct (with_coordinates_row df col c1 j rj Hj) as (rj' & Hj' & Hlat_j & Hlon_j & _).
  specialize (Hlon_i Hcol). specialize (Hlon_j Hcol).
  rewrite Hai in Hlat_i, Hlon_i. rewrite Haj in Hlat_j, Hlon_j.
  simpl in Hlat_i, Hlon_i, Hlat_j, Hlon_j.
  rewrite Hg in Hlat_i, Hlon_i, Hlat_j, Hlon_j.
  exists la, lo, table, ri', rj'.
  rewrite Hfs, lookup_insert_eq, Hget. repeat split; auto.
Qed.






End Claims.

(** ** The sample run *)

Lemma frame_run_eta {B} (x : result DataFrame * B) :
  is_ok x.1 = true -> x = (Ok (frame_of x.1), x.2).
Proof. destruct x as [[df|e] b]; simpl; [reflexivity | discriminate]. Qed.


Lemma demo_run_fresh :
  demo_geocode_run demo_state
  = (Ok (frame_of (demo_geocode_run demo_state).1), (demo_geocode_run demo_state).2).
Proof. apply frame_run_eta. vm_compute. reflexivity. Qed.










Lemma same_address_same_coordinates_witness :
  exists (la lo : pyfloat) (table : list CacheRow) (ri' rj' : Row),
    fs demo (demo_geocode_run demo_state).2 !! py "geocode_cache.csv"
    = Some (Csv demo table)
    /\ dict_get (cache_of_table table) (py "ul. Piotrkowska 104") = Some (la, lo)
    /\ rows (frame_of (demo_geocode_run demo_state).1) !! 0%nat = Some ri'
    /\ rows (frame_of (demo_geocode_run demo_state).1) !! 3%nat = Some rj'
    /\ cell_of ri' (py "lat") = CFloat la /\ cell_of ri' (py "lon") = CFloat lo
    /\ cell_of rj' (py "lat") = CFloat la /\ cell_of rj' (py "lon") = CFloat lo.
Proof.
  apply (same_address_same_coordinates demo Lodz_Polska (py "geocode_cache.csv")
           1%Q demo_df _ Adres_punktu demo_state _ 0%nat 3%nat
           (demo_row (CStr (py "ul. Piotrkowska 104")) (CStr (py "sklep")) (CStr (py "A")))
           (demo_row (CStr (py "ul. Piotrkowska 104")) (CStr (py "bar")) (CStr (py "D")))
           (py "ul. Piotrkowska 104") demo_run_fresh).
  - vm_compute. discriminate.
  - reflexivity.
  - reflexivity.
  - vm_compute. reflexivity.
  - vm_compute. reflexivity.
Defined.





(** * Further properties *)

(** ** [normalize_address] and [street_only] *)

Section StringExtras.
Context (E : Extern).

Lemma rstrip_last (s : str) (c : N) :
  last (rstrip s) = Some c -> is_space c = false.
Proof.
  induction s as [|x r IH]; simpl; [discriminate|].
  destruct (rstrip r) as [|y r'] eqn:Hr.
  - destruct (is_space x) eqn:Hx; simpl; [discriminate|].
    intros [= <-]. exact Hx.
  - intros H. apply IH. exact H.
Qed.

Lemma strip_head (s : str) (c : N) :
  head (strip s) = Some c -> is_space c = false.
Proof.
  unfold strip. destruct (lstrip_cases s) as [H | (x & r & H & Hx)]; rewrite H.
  - discriminate.
  - destruct (rstrip_cons_nonspace x r Hx) as [r' ->]. intros [= <-]. exact Hx.
Qed.

(** X1. Whatever the input, the normalized address neither starts nor ends
    with a white-space character. *)
Theorem normalize_address_no_outer_space (s : str) :
  (forall c, head (normalize_address E s) = Some c -> is_space c = false)
  /\ (forall c, last (normalize_address E s) = Some c -> is_space c = false).
Proof.
  unfold normalize_address. split; intros c H.
  - eapply strip_head, H.
  - unfold strip in H. eapply rstrip_last, H.
Qed.

Lemma spaced_lookup (s : str) (b : bool) :
  spaced b s = true ->
  forall i c, s !! i = Some c -> is_space c = true ->
    c = 32 /\ forall c', s !! S i = Some c' -> is_space c' = false.
Proof.
  revert b. induction s as [|x r IH]; intros b H i c Hi Hc.
  - discriminate.
  - simpl in H. destruct i as [|i]; simpl in Hi.
    + injection Hi as ->. rewrite Hc in H.
      apply andb_true_iff in H as [H1 H2]. apply andb_true_iff in H1 as [H1 _].
      apply N.eqb_eq in H1. split; [exact H1|].
      intros c' Hc'. destruct r as [|y r']; [discriminate|].
      simpl in Hc'. injection Hc' as ->. simpl in H2.
      destruct (is_space c'); [|reflexivity].
      rewrite andb_false_r in H2. discriminate.
    + destruct (is_space x).
      * apply andb_true_iff in H as [_ H2]. eapply IH; eauto.
      * eapply IH; eauto.
Qed.

(** X2. On ASCII input the normalized address is ASCII, and every
    white-space character in it is a single blank: it is the character 32
    and the character after it is not white space. *)
Theorem normalize_address_single_blanks (s : str) :
  forallb is_ascii s = true ->
  forallb is_ascii (normalize_address E s) = true
  /\ forall i c, normalize_address E s !! i = Some c -> is_space c = true ->
       c = 32
       /\ forall c', normalize_address E s !! S i = Some c' -> is_space c' = false.
Proof.
  intros Hs. destruct (normalize_address_ascii E s Hs) as [Hn Hascii].
  split; [exact Hascii|].
  apply (spaced_lookup _ false). rewrite Hn.
  apply (spaced_strip _ false), collapse_spaced.
Qed.

Lemma re_sub_from_length (m : matcher) (repl : str) :
  (length repl <= 1)%nat ->
  forall (s : str) (k : nat) (prev : option N),
    (length (re_sub_from m repl k prev s) <= length s)%nat.
Proof.
  intros Hrepl s. induction s as [|c r IH]; intros k prev; simpl; [lia|].
  destruct k as [|k].
  - destruct (m prev (c :: r)) as [[|n]|]; simpl.
    + specialize (IH O (Some c)). lia.
    + rewrite length_app. specialize (IH n (Some c)). lia.
    + specialize (IH O (Some c)). lia.
  - specialize (IH k (Some c)). lia.
Qed.

Lemma lstrip_length (s : str) : (length (lstrip s) <= length s)%nat.
Proof. unfold lstrip. rewrite length_drop. lia. Qed.

Lemma rstrip_length (s : str) : (length (rstrip s) <= length s)%nat.
Proof.
  induction s as [|c r IH]; simpl; [lia|].
  destruct (rstrip r) as [|x r'].
  - destruct (is_space c); simpl; lia.
  - simpl in *. lia.
Qed.

Lemma strip_length (s : str) : (length (strip s) <= length s)%nat.
Proof.
  unfold strip. pose proof (rstrip_length (lstrip s)). pose proof (lstrip_length s). lia.
Qed.

(** X3. On ASCII input the normalized address is never longer than the
    input. *)
Theorem normalize_address_not_longer (s : str) :
  forallb is_ascii s = true ->
  (length (normalize_address E s) <= length s)%nat.
Proof.
  intros Hs. destruct (normalize_address_ascii E s Hs) as [-> _].
  pose proof (strip_length (re_sub (m_ws) [32] (remove_tokens E (strip s)))) as H1.
  pose proof (re_sub_from_length m_ws [32] (le_n 1)
                (remove_tokens E (strip s)) O None) as H2.
  assert (H3 : (length (remove_tokens E (strip s)) <= length (strip s))%nat).
  { unfold remove_tokens, re_sub.
    pose proof (re_sub_from_length (m_ul E) [] (le_S _ _ (le_n 0)) (strip s) O None).
    pose proof (re_sub_from_length (m_lok E) [] (le_S _ _ (le_n 0))
                  (re_sub_from (m_ul E) [] O None (strip s)) O None).
    pose proof (re_sub_from_length (m_paw E) [] (le_S _ _ (le_n 0))
                  (re_sub_from (m_lok E) [] O None
                     (re_sub_from (m_ul E) [] O None (strip s))) O None).
    lia. }
  pose proof (strip_length s). unfold re_sub in *. lia.
Qed.

Lemma span_len_none (p : N -> bool) (s : str) :
  Forall (fun c => p c = false) s -> span_len p s = O.
Proof. destruct 1 as [|c r Hc _]; simpl; [reflexivity|]. rewrite Hc. reflexivity. Qed.

Lemma m_housenum_no_digit (prev : option N) (s : str) :
  Forall (fun c => is_digit E c = false) s -> m_housenum E prev s = None.
Proof.
  intros H. unfold m_housenum.
  rewrite (span_len_none (is_digit E) (drop (span_len is_space s) s)).
  - destruct (span_len is_space s); reflexivity.
  - apply Forall_drop, H.
Qed.

Lemma re_sub_no_match (m : matcher) (repl : str) (s : str) :
  (forall prev k', m prev (drop k' s) = None) ->
  forall prev, re_sub_from m repl O prev s = s.
Proof.
  induction s as [|c r IH]; intros Hm prev; simpl; [reflexivity|].
  pose proof (Hm prev O) as H0. simpl in H0. rewrite H0. f_equal. apply IH.
  intros prev' k'. apply (Hm prev' (S k')).
Qed.

(** X4. For an address without any digit the street-only form is the
    stripped address, so the street-only query is the full query again: the
    fallback asks both providers the same question twice. *)
Theorem street_only_without_digit (city a : str) :
  Forall (fun c => is_digit E c = false) a ->
  street_only E a = strip a
  /\ q_street E city a = q_full E city a.
Proof.
  intros H.
  assert (Hs : street_only E a = strip a).
  { unfold street_only, re_sub. rewrite re_sub_no_match; [reflexivity|].
    intros prev k'. apply m_housenum_no_digit, Forall_drop, H. }
  split; [exact Hs|].
  unfold q_street, q_full. rewrite Hs. unfold normalize_address.
  rewrite strip_strip. reflexivity.
Qed.

End StringExtras.

Lemma normalize_address_single_blanks_witness :
  forallb is_ascii (normalize_address demo (py "ul.  Zielona   7 ")) = true
  /\ normalize_address demo (py "ul.  Zielona   7 ") = py "Zielona 7".
Proof.
  split.
  - apply (normalize_address_single_blanks demo (py "ul.  Zielona   7 ")).
    vm_compute. reflexivity.
  - vm_compute. reflexivity.
Defined.

Lemma normalize_address_not_longer_witness :
  (length (normalize_address demo (py "ul.  Zielona   7 "))
   <= length (py "ul.  Zielona   7 "))%nat.
Proof.
  apply (normalize_address_not_longer demo (py "ul.  Zielona   7 ")).
  vm_compute. reflexivity.
Defined.

Lemma street_only_without_digit_witness :
  street_only demo (py " Plac Wolnosci ") = py "Plac Wolnosci"
  /\ q_street demo Lodz_Polska (py " Plac Wolnosci ")
     = q_full demo Lodz_Polska (py " Plac Wolnosci ").
Proof.
  destruct (street_only_without_digit demo Lodz_Polska (py " Plac Wolnosci ")) as [H1 H2].
  - apply Forall_forall. intros c Hc. apply list_elem_of_In in Hc.
    vm_compute in Hc. intuition (subst; reflexivity).
  - split; [rewrite H1; vm_compute; reflexivity | exact H2].
Defined.

(** ** The cache across saves, loads and runs *)

Section CacheExtras.
Context (E : Extern) (city path : str) (d : Q).





Lemma try_in_order_calls (plan : list (Provider * str)) (w : World E) :
  (length (List.filter is_call (try_in_order E d plan w).1.1) <= length plan)%nat.
Proof.
  revert w. induction plan as [|[g q] r IH]; intros w; simpl; [lia|].
  destruct (geocode E g d q w) as [[l|] w1]; simpl; [lia|].
  specialize (IH w1). destruct (try_in_order E d r w1) as [[evs loc] w2].
  simpl in *. lia.
Qed.

Lemma step_calls (c : pydict) (x : cell) st r st' :
  geocode_step E city path d c x st = (r, st') ->
  exists evs, trace E st' = trace E st ++ evs
              /\ (length (List.filter is_call evs) <= 4)%nat.
Proof.
  intros H. destruct x as [a| | |];
    try (injection H as <- <-; exists []; rewrite app_nil_r; simpl; split; [reflexivity|lia]).
  destruct (cached c a) eqn:Hc.
  - rewrite step_cached in H by auto. injection H as <- <-.
    exists []. rewrite app_nil_r. simpl. split; [reflexivity|lia].
  - rewrite step_uncached in H by auto. injection H as <- <-.
    pose proof (try_in_order_calls (fallback_plan E city a) (net E st)) as Hle.
    cbn [length fallback_plan] in Hle.
    destruct (_ =? _)%nat.
    + rewrite save_cache_run. unfold after_lookup. cbn [trace snd].
      eexists. rewrite <- app_assoc. split; [reflexivity|].
      rewrite List.filter_app, length_app. cbn [List.filter is_call length]. lia.
    + unfold after_lookup. cbn [trace]. eexists. split; [reflexivity|]. exact Hle.
Qed.

Lemma loop_calls (l : list cell) (c : pydict) st r st' :
  geocode_loop E city path d l c st = (r, st') ->
  exists evs, trace E st' = trace E st ++ evs
              /\ (length (List.filter is_call evs) <= 4 * length l)%nat.
Proof.
  revert c st. induction l as [|x l IH]; intros c st H.
  - injection H as <- <-. exists []. rewrite app_nil_r. simpl. split; [reflexivity|lia].
  - rewrite loop_cons in H.
    destruct (geocode_step E city path d c x st) as [[c1|e] st1] eqn:Es.
    + destruct (step_calls _ _ _ _ _ Es) as (evs1 & Ht1 & H1).
      destruct (IH _ _ H) as (evs2 & Ht2 & H2).
      exists (evs1 ++ evs2). rewrite Ht2, Ht1, app_assoc. split; [reflexivity|].
      rewrite List.filter_app, length_app. simpl. lia.
    + injection H as <- <-. destruct (step_calls _ _ _ _ _ Es) as (evs1 & Ht1 & H1).
      exists evs1. split; [exact Ht1|]. simpl. lia.
Qed.

(** X8. A run of [geocode_addresses] makes at most four provider calls for
    each distinct non-null value of the address column, however many rows
    bear it and whatever the run's result. *)
Theorem at_most_four_calls_per_address
    (df : DataFrame) (col : str) (st st' : State E) (res : result DataFrame) :
  geocode_addresses E df col city path d st = (res, st') ->
  exists evs,
    trace E st' = trace E st ++ evs
    /\ (length (List.filter is_call evs)
        <= 4 * length (unique (dropna (List.map (fun r => cell_of r col) (rows df)))))%nat.
Proof.
  unfold geocode_addresses, bind. intros H.
  destruct (read_cache E path st) as [r0 st0] eqn:Hr.
  apply read_cache_any in Hr as [Hst0 _].
  assert (H0 : exists evs0, trace E st0 = trace E st ++ evs0
                            /\ List.filter is_call evs0 = []).
  { destruct Hst0 as [-> | ->].
    - exists []. rewrite app_nil_r. auto.
    - eexists. split; reflexivity. }
  destruct H0 as (evs0 & Ht0 & Hc0).
  destruct r0 as [c0|e];
    [|injection H as <- <-; exists evs0; rewrite Hc0; simpl; split; [exact Ht0|lia]].
  unfold lift in H. destruct (getitem df col) as [cells|e] eqn:Hg;
    [|injection H as <- <-; exists evs0; rewrite Hc0; simpl; split; [exact Ht0|lia]].
  assert (Hcells : cells = List.map (fun r => cell_of r col) (rows df)).
  { unfold getitem in Hg. destruct (bool_decide _); congruence. }
  subst cells.
  destruct (geocode_loop E city path d _ c0 st0) as [r1 st1] eqn:Hl.
  destruct (loop_calls _ _ _ _ _ Hl) as (evs1 & Ht1 & H1).
  destruct r1 as [c1|e].
  - rewrite save_cache_run in H. injection H as <- <-. cbn [trace].
    eexists. rewrite Ht1, Ht0, <- !app_assoc. split; [reflexivity|].
    rewrite !List.filter_app, !length_app, Hc0. simpl. lia.
  - injection H as <- <-. exists (evs0 ++ evs1).
    rewrite Ht1, Ht0, app_assoc. split; [reflexivity|].
    rewrite List.filter_app, length_app, Hc0. simpl. lia.
Qed.

Lemma columns_set_column (df : DataFrame) (col : str) (f : Row -> cell) (k : str) :
  k ∈ columns (set_column df col f) <-> k ∈ columns df \/ k = col.
Proof.
  unfold set_column. cbn [columns].
  destruct (bool_decide_reflect (col ∈ columns df)) as [Hin|Hni].
  - split; [auto|]. intros [?| ->]; assumption.
  - rewrite elem_of_app, list_elem_of_singleton. reflexivity.
Qed.

Lemma columns_with_coordinates (df : DataFrame) (col : str) (c : pydict) (k : str) :
  k ∈ columns (with_coordinates df col c)
  <-> k ∈ columns df \/ k = py "lat" \/ k = py "lon".
Proof.
  unfold with_coordinates. rewrite !columns_set_column. tauto.
Qed.

(** X9. [geocode_addresses] changes nothing in the frame but the columns
    [lat] and [lon]: the frame it returns has the same number of rows, the
    columns it had together with [lat] and [lon], and in every row the same
    value in every other column. *)
Theorem only_lat_lon_change
    (df df' : DataFrame) (col : str) (st st' : State E) :
  geocode_addresses E df col city path d st = (Ok df', st') ->
  length (rows df') = length (rows df)
  /\ (forall k, k ∈ columns df' <-> k ∈ columns df \/ k = py "lat" \/ k = py "lon")
  /\ (forall i r, rows df !! i = Some r ->
        exists r', rows df' !! i = Some r'
          /\ forall k, k <> py "lat" -> k <> py "lon" -> r' !! k = r !! k).
Proof.
  intros H. apply geocode_addresses_Ok in H as (_ & c1 & _ & _ & _ & _ & _ & ->).
  split; [|split].
  - unfold with_coordinates, set_column. cbn [rows]. rewrite !length_map. reflexivity.
  - apply columns_with_coordinates.
  - intros i r Hi. unfold with_coordinates, set_column. cbn [rows].
    rewrite List.map_map.
    change (List.map ?f (rows df)) with (f <$> rows df).
    rewrite list_lookup_fmap, Hi. cbn [fmap option_fmap option_map].
    eexists. split; [reflexivity|]. intros k Hlat Hlon.
    rewrite !lookup_insert_ne by congruence. reflexivity.
Qed.

(** X10. A row whose address is missing gets NaN in [lat] and [lon], and
    [to_gdf] drops it. *)
Theorem missing_address_row_dropped
    (df df' : DataFrame) (col : str) (st st' : State E) (i : nat) (r : Row) :
  geocode_addresses E df col city path d st = (Ok df', st') ->
  rows df !! i = Some r -> isna (cell_of r col) = true ->
  exists r', rows df' !! i = Some r'
    /\ cell_of r' (py "lat") = CFloat NaN /\ cell_of r' (py "lon") = CFloat NaN
    /\ forall pts, to_gdf E df' = Ok pts ->
         forall g, <[py "geometry" := g]> r' ∉ rows pts.
Proof.
  intros H Hi Hna.
  apply geocode_addresses_Ok in H as (_ & c1 & _ & _ & _ & _ & _ & ->).
  assert (Hcg : cache_get c1 (cell_of r col) = (NaN, NaN)).
  { destruct (cell_of r col); try reflexivity. discriminate. }
  destruct (with_coordinates_row df col c1 i r Hi) as (r' & Hi' & Hlat & _ & Hlon).
  exists r'. rewrite Hlat, Hcg. split; [exact Hi'|]. split; [reflexivity|].
  split; [apply Hlon, Hcg|].
  intros pts Hpts g Hin.
  destruct (to_gdf_coordinates E _ _ Hpts _ Hin) as [Hl _].
  rewrite (cell_of_insert_ne _ _ _ _ geometry_ne_lat), Hlat, Hcg in Hl.
  discriminate.
Qed.





End CacheExtras.

(** ** Points, the join and the map *)

Section MapExtras.
Context (E : Extern).

Lemma with_geometry_point (r r' : Row) :
  with_geometry E r = Ok r' ->
  (has_coordinates r = false /\ r' = <[py "geometry" := CNone]> r)
  \/ (has_coordinates r = true
      /\ exists g, point_or_none E (cell_of r (py "lon")) (cell_of r (py "lat"))
                   = Ok (CGeom g)
                   /\ r' = <[py "geometry" := CGeom g]> r).
Proof.
  unfold with_geometry, has_coordinates.
  destruct (point_or_none E (cell_of r (py "lon")) (cell_of r (py "lat")))
    as [c|e] eqn:Hp; [|discriminate].
  intros [= <-]. unfold point_or_none in Hp.
  destruct (isna (cell_of r (py "lon"))); simpl in *.
  - injection Hp as <-. left. auto.
  - destruct (isna (cell_of r (py "lat"))); simpl in *.
    + injection Hp as <-. left. auto.
    + right. split; [reflexivity|].
      destruct (match cell_of r (py "lon") with CFloat v => Some v | _ => _ end);
        [|discriminate].
      destruct (match cell_of r (py "lat") with CFloat v => Some v | _ => _ end);
        [|discriminate].
      injection Hp as <-. eauto.
Qed.

Lemma to_gdf_filter (df pts : DataFrame) :
  to_gdf E df = Ok pts ->
  Forall2 (fun r p =>
             exists g, point_or_none E (cell_of r (py "lon")) (cell_of r (py "lat"))
                       = Ok (CGeom g)
                       /\ p = <[py "geometry" := CGeom g]> r)
          (List.filter has_coordinates (rows df)) (rows pts).
Proof.
  unfold to_gdf.
  destruct (negb (bool_decide (py "lon" ∈ columns df))); [discriminate|].
  destruct (negb (bool_decide (py "lat" ∈ columns df))); [discriminate|].
  destruct (result_map (with_geometry E) (rows df)) as [rs|e] eqn:Hrs; [|discriminate].
  intros [= <-]. cbn [rows]. apply result_map_Ok in Hrs.
  induction Hrs as [|r r' l l' Hr _ IH]; simpl; [constructor|].
  apply with_geometry_point in Hr as [[Hc ->] | [Hc (g & Hg & ->)]]; rewrite Hc.
  - rewrite cell_of_insert. simpl. exact IH.
  - rewrite cell_of_insert. simpl. constructor; [eauto | exact IH].
Qed.

(** X13. [to_gdf] keeps the rows that have both coordinates, in their order,
    and adds to each the point made of its [lon] and [lat]: nothing is
    reordered, duplicated or otherwise changed, and the columns are the
    frame's own. *)
Theorem to_gdf_keeps_order (df pts : DataFrame) :
  to_gdf E df = Ok pts ->
  Forall2 (fun r p =>
             exists g, point_or_none E (cell_of r (py "lon")) (cell_of r (py "lat"))
                       = Ok (CGeom g)
                       /\ p = <[py "geometry" := CGeom g]> r)
          (List.filter has_coordinates (rows df)) (rows pts)
  /\ (length (rows pts) <= length (rows df))%nat.
Proof.
  intros H. pose proof (to_gdf_filter df pts H) as Hf. split; [exact Hf|].
  rewrite <- (Forall2_length _ _ _ Hf). apply List.filter_length_le.
Qed.

Lemma matches_spec (p : Point) (k : nat) (l : list (Row * Geom E)) (i : nat) (props : Row) :
  (i, props) ∈ matches E p k l
  <-> exists g, (k <= i)%nat /\ l !! (i - k)%nat = Some (props, g) /\ within E p g = true.
Proof.
  revert k. induction l as [|[q g] r IH]; intros k; simpl.
  - rewrite elem_of_nil. split; [tauto|]. intros (g & _ & H & _). discriminate.
  - assert (Hrest : (i, props) ∈ matches E p (S k) r
                    <-> exists g', (S k <= i)%nat
                                   /\ (((q, g) :: r) !! (i - k)%nat = Some (props, g'))
                                   /\ within E p g' = true).
    { rewrite IH. split; intros (g' & Hle & Hl & Hw); exists g'; (split; [exact Hle|]);
        (split; [|exact Hw]).
      - replace (i - k)%nat with (S (i - S k)) by lia. exact Hl.
      - replace (i - k)%nat with (S (i - S k)) in Hl by lia. exact Hl. }
    destruct (within E p g) eqn:Hw.
    + rewrite elem_of_cons, Hrest. split.
      * intros [[= -> ->] | (g' & Hle & Hl & Hw')].
        -- exists g. rewrite Nat.sub_diag. auto.
        -- exists g'. split; [lia|]. auto.
      * intros (g' & Hle & Hl & Hw').
        destruct (decide (i = k)) as [->|Hne].
        -- rewrite Nat.sub_diag in Hl. injection Hl as <- <-. left. reflexivity.
        -- right. exists g'. split; [lia|]. auto.
    + rewrite Hrest. split.
      * intros (g' & Hle & Hl & Hw'). exists g'. split; [lia|]. auto.
      * intros (g' & Hle & Hl & Hw').
        destruct (decide (i = k)) as [->|Hne].
        -- rewrite Nat.sub_diag in Hl. injection Hl as <- <-. congruence.
        -- exists g'. split; [lia|]. auto.
Qed.

Lemma join_row_left (polys : GeoFrame E) (name_col : str) (r : Row) (jr : JoinedRow) :
  jr ∈ join_row E polys name_col r -> left jr = r.
Proof.
  unfold join_row. intros H.
  destruct (cell_of r (py "geometry")) as [|x|p|];
    try (apply list_elem_of_singleton in H as ->; reflexivity).
  destruct (matches E p 0 (features E polys)) as [|m ms].
  - apply list_elem_of_singleton in H as ->. reflexivity.
  - apply elem_of_map in H as (m' & -> & _). reflexivity.
Qed.

Lemma join_row_length (polys : GeoFrame E) (name_col : str) (r : Row) :
  length (join_row E polys name_col r) = Nat.max 1 (holders E polys r).
Proof.
  unfold join_row, holders.
  destruct (cell_of r (py "geometry")) as [|x|p|]; try reflexivity.
  destruct (matches E p 0 (features E polys)) as [|m ms]; [reflexivity|].
  rewrite length_map. simpl. lia.
Qed.

Lemma flat_map_length {A B} (f : A -> list B) (l : list A) :
  length (flat_map f l) = list_sum (List.map (fun a => length (f a)) l).
Proof.
  induction l as [|a l IH]; simpl; [reflexivity|].
  rewrite length_app, IH. reflexivity.
Qed.

(** X14. The spatial join is a left join: every point row appears in the
    result, once if no polygon holds its point and once for each polygon
    that holds it, so a point inside two polygons is counted twice. *)
Theorem spatial_join_keeps_every_point
    (pts : DataFrame) (polys : GeoFrame E) (name_col : str) (joined : JoinedFrame) :
  spatial_join E pts polys name_col = Ok joined ->
  (forall r, r ∈ rows pts -> exists jr, jr ∈ jrows joined /\ left jr = r)
  /\ length (jrows joined)
     = list_sum (List.map (fun r => Nat.max 1 (holders E polys r)) (rows pts)).
Proof.
  unfold spatial_join. destruct (bool_decide _); [|discriminate].
  intros [= <-]. cbn [jrows jcolumns]. split.
  - intros r Hr.
    assert (Hne : exists jr, jr ∈ join_row E polys name_col r).
    { pose proof (join_row_length polys name_col r) as Hl.
      destruct (join_row E polys name_col r) as [|jr l]; [simpl in Hl; lia|].
      exists jr. apply elem_of_cons. auto. }
    destruct Hne as [jr Hjr]. exists jr. split; [|eapply join_row_left, Hjr].
    apply list_elem_of_In, in_flat_map. exists r.
    split; apply list_elem_of_In; assumption.
  - rewrite flat_map_length. f_equal. apply List.map_ext.
    intros r. apply join_row_length.
Qed.

(** X15. When the point frame has no column that the join would rename
    ([join_names_free]), each row of the join carries the name of a polygon
    that holds its point, taken from the name column of that polygon; a row
    without a polygon has NaN as its name, and then no polygon holds its
    point. *)
Theorem spatial_join_names
    (pts : DataFrame) (polys : GeoFrame E) (name_col : str) (joined : JoinedFrame)
    (jr : JoinedRow) :
  join_names_free pts name_col = true ->
  spatial_join E pts polys name_col = Ok joined ->
  jr ∈ jrows joined ->
  match index_right jr with
  | Some i =>
      exists p props g,
        cell_of (left jr) (py "geometry") = CGeom p
        /\ features E polys !! i = Some (props, g)
        /\ within E p g = true
        /\ Osiedle jr = cell_of props name_col
  | None =>
      Osiedle jr = CFloat NaN
      /\ forall p i props g,
           cell_of (left jr) (py "geometry") = CGeom p ->
           features E polys !! i = Some (props, g) -> within E p g = false
  end.
Proof.
  intros _. unfold spatial_join. destruct (bool_decide _); [|discriminate].
  intros [= <-] Hjr. cbn [jrows] in Hjr.
  apply list_elem_of_In, in_flat_map in Hjr as (r & _ & Hjr).
  apply list_elem_of_In in Hjr. unfold join_row in Hjr.
  destruct (cell_of r (py "geometry")) as [|x|p|] eqn:Hgeo;
    try (apply list_elem_of_singleton in Hjr as ->; simpl;
         split; [reflexivity | intros ? ? ? ? Hp; congruence]).
  destruct (matches E p 0 (features E polys)) as [|m ms] eqn:Hm.
  - apply list_elem_of_singleton in Hjr as ->. simpl. split; [reflexivity|].
    intros p' i props g Hp Hf. rewrite Hgeo in Hp. injection Hp as <-.
    destruct (within E p g) eqn:Hw; [|reflexivity]. exfalso.
    assert (Hin : (i, props) ∈ matches E p 0 (features E polys)).
    { apply matches_spec. exists g. rewrite Nat.sub_0_r. split; [lia|]. auto. }
    rewrite Hm in Hin. apply elem_of_nil in Hin as [].
  - apply elem_of_map in Hjr as ([i props] & -> & Hin). simpl.
    rewrite <- Hm in Hin. apply matches_spec in Hin as (g & _ & Hl & Hw).
    rewrite Nat.sub_0_r in Hl. exists p, props, g. auto.
Qed.

Lemma starts_with_app (needle rest : str) : starts_with needle (needle ++ rest) = true.
Proof.
  induction needle as [|c n IH]; simpl; [reflexivity|].
  rewrite N.eqb_refl. exact IH.
Qed.

Lemma starts_with_app_l (needle a b : str) :
  starts_with needle a = true -> starts_with needle (a ++ b) = true.
Proof.
  revert a. induction needle as [|c n IH]; intros a H; [reflexivity|].
  destruct a as [|x a]; [discriminate|]. simpl in *.
  apply andb_true_iff in H as [H1 H2]. rewrite H1. simpl. auto.
Qed.

Lemma contains_app_l (needle a b : str) :
  contains needle a = true -> contains needle (a ++ b) = true.
Proof.
  induction a as [|x a IH]; simpl; intros H.
  - rewrite orb_false_r in H. destruct needle; [|discriminate].
    destruct b; reflexivity.
  - apply orb_true_iff in H as [H|H].
    + change (x :: a ++ b) with ((x :: a) ++ b).
      rewrite (starts_with_app_l _ (x :: a) b H). reflexivity.
    + rewrite (IH H). apply orb_true_r.
Qed.

Lemma contains_here (needle rest : str) : contains needle (needle ++ rest) = true.
Proof.
  destruct (needle ++ rest) eqn:H; simpl; rewrite <- H, starts_with_app; reflexivity.
Qed.

Lemma contains_concat (needle : str) (l : list str) :
  needle ∈ l -> contains needle (concat l) = true.
Proof.
  induction l as [|x l IH]; intros H; [apply elem_of_nil in H as []|].
  simpl. apply elem_of_cons in H as [->|H].
  - apply contains_here.
  - apply contains_app_r, IH, H.
Qed.

(** X16. Every count given to [build_sidebar] appears in the sidebar as one
    table row, with the name written as it is (nothing is escaped) and the
    count in decimal. *)
Theorem sidebar_has_every_row (counts : list (cell * nat)) (k : cell) (n : nat) :
  (k, n) ∈ counts ->
  contains
    (py "<tr data-os='" ++ fmt E k ++ py "'><td>" ++ fmt E k
     ++ py "</td><td class='cnt' style='text-align:right'>" ++ decimal n
     ++ py "</td></tr>")
    (build_sidebar E counts) = true.
Proof.
  intros H. unfold build_sidebar.
  do 9 apply contains_app_r. apply contains_app_l.
  apply contains_concat. apply elem_of_map. exists (k, n). split; [reflexivity|exact H].
Qed.

Lemma bind_Raise {A B} (m : M E A) (k : A -> M E B) st e st' :
  bind E m k st = (Raise e, st') ->
  m st = (Raise e, st')
  \/ exists a st1, m st = (Ok a, st1) /\ k a st1 = (Raise e, st').
Proof.
  unfold bind. destruct (m st) as [[a|e0] st1]; intros H.
  - right. eauto.
  - injection H as <- <-. left. reflexivity.
Qed.

Lemma lift_state {A} (x : result A) st r st' : lift E x st = (r, st') -> st' = st.
Proof. unfold lift. intros [= _ <-]. reflexivity. Qed.

Lemma Element_state (text : str) st r st' : Element E text st = (r, st') -> st' = st.
Proof. unfold Element. destruct (jinja_parses E text); intros [= _ <-]; reflexivity. Qed.

Lemma build_map_Raise pts osd name_col start outfile st st' e :
  build_map E pts osd name_col start outfile st = (Raise e, st') -> st' = st.
Proof.
  unfold build_map. intros H.
  repeat match goal with
         | H : bind E _ _ _ = (Raise _, _) |- _ =>
             apply bind_Raise in H as [H | (? & ? & H0 & H)];
             [ first [apply lift_state in H | apply Element_state in H]; exact H
             | first [apply lift_state in H0 | apply Element_state in H0]; subst ]
         end.
  unfold save in H. discriminate.
Qed.

(** X17. [build_map] saves the document as its last step: when it raises,
    the state is what it was; no file has been written or changed and
    nothing was requested from outside. *)
Theorem build_map_raises_before_saving
    (pts : JoinedFrame) (osd : GeoFrame E) (name_col : str)
    (start : pyfloat * pyfloat) (outfile : str) (st st' : State E) (e : exn) :
  build_map E pts osd name_col start outfile st = (Raise e, st') ->
  st' = st /\ fs E st' = fs E st /\ trace E st' = trace E st.
Proof.
  intros H. apply build_map_Raise in H. subst st'. auto.
Qed.

Lemma read_file_fs (path : str) st r st' :
  read_file E path st = (r, st') -> fs E st' = fs E st.
Proof.
  unfold read_file. destruct (fs E st !! path) as [[| | |]|]; intros [= _ <-]; reflexivity.
Qed.

Lemma map_from_frame_Raise (a : Args) (df : DataFrame) st e st' :
  map_from_frame E a df st = (Raise e, st') -> fs E st' = fs E st.
Proof.
  unfold map_from_frame. intros H.
  apply bind_Raise in H as [H | (pts & st1 & H0 & H)];
    [apply lift_state in H; subst; reflexivity|].
  apply lift_state in H0. subst st1.
  apply bind_Raise in H as [H | (osd & st1 & H0 & H)];
    [eapply read_file_fs, H|].
  apply read_file_fs in H0. rewrite <- H0.
  apply bind_Raise in H as [H | (joined & st2 & H1 & H)];
    [apply lift_state in H; subst; reflexivity|].
  apply lift_state in H1. subst st2.
  apply build_map_Raise in H. subst. reflexivity.
Qed.

(** X18. When the program raises, the file at the output path is what it
    was before the run (the cache file, at a different path, may have been
    written). *)
Theorem failed_run_leaves_output (a : Args) (st st' : State E) (e : exn) :
  main E a st = (Raise e, st') -> out a <> cache a ->
  fs E st' !! out a = fs E st !! out a.
Proof.
  unfold main. intros H Hne.
  assert (Hx : forall df st1 r st2,
             (if negb (bool_decide (py "lat" ∈ columns df))
                 || negb (bool_decide (py "lon" ∈ columns df))
              then geocode_addresses E df Adres_punktu Lodz_Polska (cache a) 1%Q
              else ret E df) st1 = (r, st2) ->
             fs E st2 !! out a = fs E st1 !! out a).
  { intros df st1 r st2 Hg. destruct (_ || _).
    - apply (geocode_addresses_footprint E _ _ _ _ _ _ _ _ Hg). exact Hne.
    - injection Hg as _ <-. reflexivity. }
  assert (Hr : forall r st1, read_excel E (excel a) st = (r, st1) -> fs E st1 = fs E st).
  { intros r st1. unfold read_excel.
    destruct (fs E st !! excel a) as [[| | |]|]; intros [= _ <-]; reflexivity. }
  apply bind_Raise in H as [H | (df & st1 & H0 & H)];
    [rewrite (Hr _ _ H); reflexivity|].
  rewrite <- (Hr _ _ H0).
  apply bind_Raise in H as [H | (df' & st2 & H1 & H)];
    [apply (Hx _ _ _ _ H)|].
  rewrite <- (Hx _ _ _ _ H1). apply map_from_frame_Raise in H. rewrite H. reflexivity.
Qed.

Lemma Element_parses (text : str) st e st' :
  Element E text st = (Ok e, st') -> jinja_parses E text = true.
Proof. unfold Element. destruct (jinja_parses E text); [reflexivity|discriminate]. Qed.

Lemma build_map_parts pts osd name_col start outfile st st' :
  build_map E pts osd name_col start outfile st = (Ok tt, st') ->
  exists doc,
    fs E st' = <[outfile := Html E doc]> (fs E st)
    /\ result_map geometry_yx (jrows pts) = Ok (heat doc)
    /\ (exists cats, result_map (cluster E pts) cats = Ok (clusters doc))
    /\ exists sidebar text js,
         html doc = [sidebar; text; js]
         /\ jinja_parses E text = true
         /\ starts_with (py "<script>var catLayers={{}};</script>") text = true.
Proof.
  unfold build_map. intros H.
  apply bind_Ok in H as (heat_data & st1 & H1 & H). apply lift_Ok in H1 as [Hh ->].
  apply bind_Ok in H as (rodzaj & st1 & H1 & H). apply lift_Ok in H1 as [_ ->].
  apply bind_Ok in H as (layers & st1 & H1 & H). apply lift_Ok in H1 as [Hc ->].
  apply bind_Ok in H as (e1 & st1 & H1 & H). apply Element_Ok in H1 as [_ ->].
  apply bind_Ok in H as (e2 & st1 & H1 & H).
  assert (Hj : jinja_parses E e2 = true
               /\ starts_with (py "<script>var catLayers={{}};</script>") e2 = true).
  { pose proof (Element_parses _ _ _ _ H1) as Hp.
    apply Element_Ok in H1 as [He2 _]. rewrite He2.
    split; [exact Hp | apply starts_with_app]. }
  apply Element_Ok in H1 as [_ ->].
  apply bind_Ok in H as (e3 & st1 & H1 & H). apply Element_Ok in H1 as [_ ->].
  unfold save in H. injection H as <-.
  exists {| location := start; heat := heat_data; clusters := layers;
            html := [e1; e2; e3] |}.
  split; [reflexivity|]. split; [exact Hh|].
  split; [eexists; exact Hc|]. exists e1, e2, e3. split; [reflexivity|]. exact Hj.
Qed.




(** X21. The layer script that [build_map] hands to [folium.Element] always
    contains the text [{{}}] (line 181 is not an f-string).  With a template
    compiler that rejects an empty expression, [build_map] therefore never
    completes, and neither does the program: no map is written. *)
Theorem empty_expression_stops_the_map :
  (forall text, contains (py "{{}}") text = true -> jinja_parses E text = false) ->
  (forall pts osd name_col start outfile st,
     (build_map E pts osd name_col start outfile st).1 <> Ok tt)
  /\ (forall a st, (main E a st).1 <> Ok tt).
Proof.
  intros Hstrict.
  assert (Hb : forall pts osd name_col start outfile st,
             (build_map E pts osd name_col start outfile st).1 <> Ok tt).
  { intros pts osd name_col start outfile st Hok.
    destruct (build_map E pts osd name_col start outfile st) as [r st'] eqn:H.
    simpl in Hok. subst r.
    apply build_map_parts in H as (doc & _ & _ & _ & sb & text & js & _ & Hj & Hs).
    rewrite Hstrict in Hj; [discriminate|].
    assert (Hsplit : exists rest, text = py "<script>var catLayers={{}};</script>" ++ rest).
    { clear -Hs. revert text Hs.
      generalize (py "<script>var catLayers={{}};</script>").
      intros needle. induction needle as [|c n IH]; intros text Hs.
      - exists text. reflexivity.
      - destruct text as [|x t]; [discriminate|]. simpl in Hs.
        apply andb_true_iff in Hs as [Hc Ht]. apply N.eqb_eq in Hc. subst x.
        destruct (IH t Ht) as [rest ->]. exists rest. reflexivity. }
    destruct Hsplit as [rest ->]. apply contains_app_l. vm_compute. reflexivity. }
  split; [exact Hb|].
  intros a st Hok. destruct (main E a st) as [r st'] eqn:H. simpl in Hok. subst r.
  unfold main in H.
  apply bind_Ok in H as (df & st1 & _ & H).
  apply bind_Ok in H as (df' & st2 & _ & H).
  unfold map_from_frame in H.
  apply bind_Ok in H as (pts & st3 & _ & H).
  apply bind_Ok in H as (osd & st4 & _ & H).
  apply bind_Ok in H as (joined & st5 & _ & H).
  eapply Hb. rewrite H. reflexivity.
Qed.

End MapExtras.

(** ** The further properties on the sample run *)

Lemma result_eta {A} (d : A) (x : result A) :
  is_ok x = true -> x = Ok (value_or d x).
Proof. destruct x; simpl; [reflexivity | discriminate]. Qed.

Lemma demo_run_full :
  demo_geocode_run demo_full_state
  = (Ok (frame_of (demo_geocode_run demo_full_state).1),
     (demo_geocode_run demo_full_state).2).
Proof. apply frame_run_eta. vm_compute. reflexivity. Qed.

Lemma demo_pts_eq : to_gdf demo demo_df_located = Ok demo_pts.
Proof. apply result_eta. vm_compute. reflexivity. Qed.

Lemma demo_joined_eq : spatial_join demo demo_pts demo_osd (py "name") = Ok demo_joined.
Proof. apply result_eta. vm_compute. reflexivity. Qed.





Lemma at_most_four_calls_per_address_witness :
  exists evs,
    trace demo (demo_geocode_run demo_state).2 = trace demo demo_state ++ evs
    /\ (length (List.filter is_call evs) <= 4 * 3)%nat.
Proof.
  destruct (at_most_four_calls_per_address demo Lodz_Polska (py "geocode_cache.csv")
              1%Q demo_df Adres_punktu demo_state _ _ demo_run_fresh)
    as (evs & H1 & H2).
  exists evs. split; [exact H1|].
  assert (Hn : length (unique (dropna (List.map (fun r => cell_of r Adres_punktu)
                                                (rows demo_df)))) = 3%nat)
    by (vm_compute; reflexivity).
  rewrite Hn in H2. exact H2.
Defined.

Lemma only_lat_lon_change_witness :
  length (rows (frame_of (demo_geocode_run demo_state).1)) = length (rows demo_df).
Proof.
  destruct (only_lat_lon_change demo Lodz_Polska (py "geocode_cache.csv") 1%Q
              demo_df _ Adres_punktu demo_state _ demo_run_fresh) as [H _].
  exact H.
Defined.

Lemma missing_address_row_dropped_witness :
  exists r', rows (frame_of (demo_geocode_run demo_state).1) !! 4%nat = Some r'
    /\ cell_of r' (py "lat") = CFloat NaN /\ cell_of r' (py "lon") = CFloat NaN.
Proof.
  destruct (missing_address_row_dropped demo Lodz_Polska (py "geocode_cache.csv") 1%Q
              demo_df _ Adres_punktu demo_state _ 4%nat
              (demo_row (CFloat NaN) (CStr (py "bar")) (CStr (py "E")))
              demo_run_fresh) as (r' & H1 & H2 & H3 & _).
  - reflexivity.
  - vm_compute. reflexivity.
  - exists r'. auto.
Defined.



Lemma to_gdf_keeps_order_witness :
  length (List.filter has_coordinates (rows demo_df_located)) = length (rows demo_pts).
Proof.
  destruct (to_gdf_keeps_order demo demo_df_located demo_pts demo_pts_eq) as [H _].
  exact (Forall2_length _ _ _ H).
Defined.

Lemma spatial_join_keeps_every_point_witness :
  length (jrows demo_joined)
  = list_sum (List.map (fun r => Nat.max 1 (holders demo demo_osd r)) (rows demo_pts)).
Proof.
  destruct (spatial_join_keeps_every_point demo demo_pts demo_osd (py "name")
              demo_joined demo_joined_eq) as (_ & H).
  exact H.
Defined.

Lemma spatial_join_names_witness :
  match index_right demo_first_joined with
  | Some i =>
      exists p props g,
        cell_of (left demo_first_joined) (py "geometry") = CGeom p
        /\ features demo demo_osd !! i = Some (props, g)
        /\ within demo p g = true
        /\ Osiedle demo_first_joined = cell_of props (py "name")
  | None =>
      Osiedle demo_first_joined = CFloat NaN
      /\ forall p i props g,
           cell_of (left demo_first_joined) (py "geometry") = CGeom p ->
           features demo demo_osd !! i = Some (props, g) -> within demo p g = false
  end.
Proof.
  apply (spatial_join_names demo demo_pts demo_osd (py "name") demo_joined
           demo_first_joined).
  - vm_compute. reflexivity.
  - exact demo_joined_eq.
  - apply (list_elem_of_lookup_2 _ 0%nat). vm_compute. reflexivity.
Defined.

Lemma sidebar_has_every_row_witness :
  contains
    (py "<tr data-os='" ++ fmt demo (CStr (py "Polesie")) ++ py "'><td>"
     ++ fmt demo (CStr (py "Polesie"))
     ++ py "</td><td class='cnt' style='text-align:right'>" ++ decimal 3
     ++ py "</td></tr>")
    (build_sidebar demo [(CStr (py "Srodmiescie"), 4%nat); (CStr (py "Polesie"), 3%nat)])
  = true.
Proof.
  apply (sidebar_has_every_row demo
           [(CStr (py "Srodmiescie"), 4%nat); (CStr (py "Polesie"), 3%nat)]
           (CStr (py "Polesie")) 3%nat).
  apply (list_elem_of_lookup_2 _ 1%nat). reflexivity.
Defined.

Lemma raise_run_eta {A B} (e : exn) (x : result A * B) :
  x.1 = Raise e -> x = (Raise e, x.2).
Proof. destruct x as [r b]. simpl. intros ->. reflexivity. Qed.

Lemma build_map_raises_before_saving_witness :
  (build_map demo {| jcolumns := []; jrows := [] |} demo_osd (py "name") (NaN, NaN)
     (py "mapa_v6.html") demo_state).2 = demo_state.
Proof.
  destruct (build_map_raises_before_saving demo {| jcolumns := []; jrows := [] |}
              demo_osd (py "name") (NaN, NaN) (py "mapa_v6.html") demo_state
              (build_map demo {| jcolumns := []; jrows := [] |} demo_osd (py "name")
                 (NaN, NaN) (py "mapa_v6.html") demo_state).2
              (KeyError (py "Rodzaj"))) as [H _].
  - apply raise_run_eta. vm_compute. reflexivity.
  - exact H.
Defined.

Lemma failed_run_leaves_output_witness :
  fs demo (main demo demo_args demo_empty_state).2 !! out demo_args
  = fs demo demo_empty_state !! out demo_args.
Proof.
  apply (failed_run_leaves_output demo demo_args demo_empty_state
           (main demo demo_args demo_empty_state).2
           (FileNotFoundError (py "lista.xlsx"))).
  - apply raise_run_eta. vm_compute. reflexivity.
  - intros H. vm_compute in H. discriminate.
Defined.





Lemma empty_expression_stops_the_map_witness :
  (main demo_strict demo_args demo_strict_state).1 <> Ok tt.
Proof.
  destruct (empty_expression_stops_the_map demo_strict) as [_ H].
  - intros text Ht. change (negb (contains (py "{{}}") text) = false).
    rewrite Ht. reflexivity.
  - apply H.
Defined.

